(** * lsp-mcp: the tool handlers of [src/tools/index.ts] and the protocol
    client adapter they drive.

    The development has two layers.

    - The first part embeds [src/tools/index.ts]: [createFileUri],
      [checkLspClientInitialized] and the nine handlers returned by
      [getToolHandlers].  A handler is a closure over the arguments of
      [getToolHandlers]; it runs in a small state-and-exception monad over
      a [World] that holds the host's variables, the heap of [LSPClient]
      objects and the sequence of calls made to external collaborators.
      The [LSPClient] class itself ([src/lspClient.ts]) is not part of the
      sources at hand, so the handlers are stated over an interface,
      [LSPClientOps], that lists the methods the handlers call.

    - [Module DocumentStore], [Module Hover] and [Module Framer] model the
      parts of the client adapter that the handlers rely on, from its
      written specification; [Module Reference] assembles them into a
      client that implements [LSPClientOps], with a host to run it.

    Handlers are [async] functions; the embedding runs one handler at a
    time, from its first statement to its return or throw. *)

From Stdlib Require Import ZArith Lia Ascii Strings.Byte Decimal DecimalNat.
From Stdlib Require Import Floats.
From stdpp Require Import base option list strings gmap fin_maps.

#[local] Open Scope string_scope.
#[local] Open Scope list_scope.

(** ** JavaScript values the handlers manipulate *)

(** A thrown value.  Every [catch] block of the source computes
    [error instanceof Error ? error.message : String(error)], so a thrown
    value is an [Error] object carrying a message, or any other value, kept
    with its [String(...)] rendering. *)
Inductive Thrown :=
| JsError (message : string)
| JsValue (rendered : string).

Definition errorMessage (error : Thrown) : string :=
  match error with
  | JsError message => message
  | JsValue rendered => rendered
  end.

(** The outcome of evaluating a statement or an awaited promise. *)
Inductive Result (A : Type) :=
| Ok (a : A)
| Throw (error : Thrown).
Arguments Ok {A} a.
Arguments Throw {A} error.

(** Truthiness of an optional string argument ([args.root_dir],
    [args.file_path]): [undefined] and the empty string are falsy. *)
Definition truthy (o : option string) : bool :=
  match o with
  | Some s => negb (String.eqb s EmptyString)
  | None => false
  end.

(** [o || d] for an optional string [o] and a string [d]. *)
Definition or_else (o : option string) (d : string) : string :=
  match o with
  | Some s => if String.eqb s EmptyString then d else s
  | None => d
  end.

(** [`${o}`] in a branch where [o] is truthy. *)
Definition the_string (o : option string) : string := default EmptyString o.

(** The TypeError raised by a method call [x.name(...)] on [null]. *)
Definition nullDeref (name : string) : Thrown :=
  JsError ("Cannot read properties of null (reading '" +:+ name +:+ "')").

(** The levels accepted by [set_log_level], as listed in its tool
    description, from least to most verbose. *)
Inductive LoggingLevel :=
| Emergency | Alert | Critical | Error | Warning | Notice | Info | Debug.

(** [`${level}`]. *)
Definition levelName (l : LoggingLevel) : string :=
  match l with
  | Emergency => "emergency" | Alert => "alert" | Critical => "critical"
  | Error => "error" | Warning => "warning" | Notice => "notice"
  | Info => "info" | Debug => "debug"
  end.

(** A JavaScript number is an IEEE-754 binary64 value: [float], with the
    arithmetic of [PrimFloat].  [number n] is the number that the integer
    literal [n] denotes: [n] rounded to the nearest double, ties to even. *)
Definition number (n : Z) : float :=
  SF2Prim (binary_normalize prec emax n 0 false).

(** The integer that a number is, when it is one. *)
Definition integerValue (x : float) : option Z :=
  match Prim2SF x with
  | S754_zero _ => Some 0%Z
  | S754_finite s m e =>
      let m := cond_Zopp s (Zpos m) in
      if (0 <=? e)%Z then Some (m * 2 ^ e)%Z
      else if (m mod 2 ^ (- e) =? 0)%Z then Some (m / 2 ^ (- e))%Z
      else None
  | _ => None
  end.

(** LSP positions and ranges, as the object literals of the handlers. *)
Record Position := { line : float; character : float }.
Record Range := { start : Position; end_ : Position }.

(** The value a handler resolves to:
    [{ content: [{ type: "text", text }] }]. *)
Record TextContent := { type : string; text : string }.
Record ToolResult := { content : list TextContent }.

Definition textResult (t : string) : ToolResult :=
  {| content := [ {| type := "text"; text := t |} ] |}.

(** The arguments of a tool call, after schema validation by the caller.
    Optional string arguments are [option string]; line and column numbers
    are JavaScript numbers. *)
Inductive ToolCall :=
| get_info_on_location (file_path language_id : string) (line column : float)
| get_completions (file_path language_id : string) (line column : float)
| get_code_actions (file_path language_id : string)
    (start_line start_column end_line end_column : float)
| restart_lsp_server (root_dir : option string)
| start_lsp (root_dir : option string)
| open_document (file_path language_id : string)
| close_document (file_path : string)
| get_diagnostics (file_path : option string)
| set_log_level (level : LoggingLevel).

(** A reference to an [LSPClient] object: an index into the heap. *)
Definition ref := nat.

(** The methods of [LSPClient] that the handlers invoke, with the
    arguments they were given. *)
Inductive Method :=
| MInitialize (rootDir : string)
| MRestart (rootDir : string)
| MOpenDocument (uri content languageId : string)
| MCloseDocument (uri : string)
| MGetInfoOnLocation (uri : string) (position : Position)
| MGetCompletion (uri : string) (position : Position)
| MGetCodeActions (uri : string) (range : Range)
| MIsDocumentOpen (uri : string)
| MGetDiagnostics (uri : string)
| MGetAllDiagnostics.

(** A call that leaves the handler: to the logging module, the file
    system, the host's callbacks, or a method of an [LSPClient].  Of a log
    call the severity is kept, not the text. *)
Inductive Call :=
| Log (severity : LoggingLevel)
| SetLogLevel (level : LoggingLevel)
| ReadFile (path : string)
| SetRootDir (dir : string)
| NewLSPClient (r : ref) (path : string) (args : list string)
| SetLspClient (r : ref)
| ClientCall (r : ref) (m : Method).

Definition isClientCall (c : Call) : bool :=
  match c with
  | ClientCall _ _ | NewLSPClient _ _ _ => true
  | _ => false
  end.

(** The interface of [LSPClient] as the handlers use it.  [C] is the state
    of one client object, [Any] the type of the values the analysis server
    returns (completion items, code actions, diagnostics), which the
    handlers pass on without looking inside.  Asynchronous methods may
    throw and may change the object; [isDocumentOpen], [getDiagnostics] and
    [getAllDiagnostics] are synchronous read-only lookups.  A JavaScript
    [Map] and a record are kept as the list of their entries in insertion
    order; the keys of a [Map] are pairwise distinct. *)
Class LSPClientOps (C Any : Type) := {
  newLSPClient : string -> list string -> Result C;
  initialize : string -> C -> Result unit * C;
  restart : string -> C -> Result unit * C;
  openDocument : string -> string -> string -> C -> Result unit * C;
  closeDocument : string -> C -> Result unit * C;
  getInfoOnLocation : string -> Position -> C -> Result string * C;
  getCompletion : string -> Position -> C -> Result (list Any) * C;
  getCodeActions : string -> Range -> C -> Result (list Any) * C;
  isDocumentOpen : string -> C -> bool;
  getDiagnostics : string -> C -> list Any;
  getAllDiagnostics : C -> list (string * list Any);
}.

(** [obj[key] = value] on a record: an existing property keeps its place
    and takes the new value, a new property comes last. *)
Fixpoint obj_set {V} (key : string) (value : V) (obj : list (string * V))
    : list (string * V) :=
  match obj with
  | [] => [(key, value)]
  | (k, v) :: rest =>
      if String.eqb k key then (k, value) :: rest
      else (k, v) :: obj_set key value rest
  end.

(** The value handed to [JSON.stringify(_, null, 2)]: an array of server
    values, or a record from uri to an array of diagnostics. *)
Inductive Payload (Any : Type) :=
| PArray (items : list Any)
| PRecord (fields : list (string * list Any)).
Arguments PArray {Any} items.
Arguments PRecord {Any} fields.

(** The values a handler closes over: the arguments of [getToolHandlers]
    other than the two callbacks.  ([server] is not used by any handler.) *)
Record Env := {
  lspClient : option ref;
  lspServerPath : string;
  lspServerArgs : list string;
  rootDir : string;
}.

(** ** The handlers *)

Section Handlers.

(** [H] is the state of the host that created the handlers, which the
    two callbacks update. *)
Context {H C Any : Type} {ops : LSPClientOps C Any}.

Variable setLspClient : ref -> H -> H.
Variable setRootDir : string -> H -> H.

(** [path.resolve], [fs.readFile(_, 'utf-8')] and
    [JSON.stringify(_, null, 2)]. *)
Variable resolve : string -> string.
Variable readFile : string -> Result string.
Variable stringify : Payload Any -> string.

Record World := {
  host : H;
  heap : list C;
  logLevel : LoggingLevel;
  trace : list Call;
}.

Definition M (A : Type) : Type := World -> Result A * World.

Definition ret {A} (a : A) : M A := fun w => (Ok a, w).

Definition throw {A} (e : Thrown) : M A := fun w => (Throw e, w).

Definition bind {A B} (m : M A) (k : A -> M B) : M B :=
  fun w =>
    match m w with
    | (Ok a, w') => k a w'
    | (Throw e, w') => (Throw e, w')
    end.

(** [try { m } catch (error) { h error }] *)
Definition try_catch {A} (m : M A) (h : Thrown -> M A) : M A :=
  fun w =>
    match m w with
    | (Ok a, w') => (Ok a, w')
    | (Throw e, w') => h e w'
    end.

#[local] Instance M_ret : MRet M := @ret.
#[local] Instance M_bind : MBind M := fun A B k m => bind m k.

Definition emit (c : Call) (w : World) : World :=
  {| host := host w; heap := heap w; logLevel := logLevel w;
     trace := trace w ++ [c] |}.

Definition call (c : Call) : M unit := fun w => (Ok tt, emit c w).

(** The logging functions of [../logging/index.js]. *)
Definition debug : M unit := call (Log Debug).
Definition info : M unit := call (Log Info).
Definition logError : M unit := call (Log Error).

Definition setLogLevel (level : LoggingLevel) : M unit :=
  fun w =>
    (Ok tt, emit (SetLogLevel level)
              {| host := host w; heap := heap w; logLevel := level;
                 trace := trace w |}).

Definition callSetRootDir (dir : string) : M unit :=
  fun w =>
    (Ok tt, emit (SetRootDir dir)
              {| host := setRootDir dir (host w); heap := heap w;
                 logLevel := logLevel w; trace := trace w |}).

Definition callSetLspClient (r : ref) : M unit :=
  fun w =>
    (Ok tt, emit (SetLspClient r)
              {| host := setLspClient r (host w); heap := heap w;
                 logLevel := logLevel w; trace := trace w |}).

Definition awaitReadFile (path : string) : M string :=
  fun w => (readFile path, emit (ReadFile path) w).

(** [new LSPClient(path, args)]: the new object is placed at the first
    free address of the heap. *)
Definition new_LSPClient (path : string) (args : list string) : M ref :=
  fun w =>
    match newLSPClient path args with
    | Ok c =>
        let r := length (heap w) in
        (Ok r, emit (NewLSPClient r path args)
                 {| host := host w; heap := heap w ++ [c];
                    logLevel := logLevel w; trace := trace w |})
    | Throw e => (Throw e, w)
    end.

(** [lspClient!.name(...)] for a method that may change the object.
    The [!] is erased by the compiler: on [null] the call raises a
    TypeError.  A reference always points into the heap; the last case
    keeps the function total. *)
Definition invoke {A} (client : option ref) (name : string) (m : Method)
    (op : C -> Result A * C) : M A :=
  fun w =>
    match client with
    | None => (Throw (nullDeref name), w)
    | Some r =>
        match heap w !! r with
        | Some c =>
            let '(res, c') := op c in
            (res, emit (ClientCall r m)
                    {| host := host w; heap := <[r:=c']> (heap w);
                       logLevel := logLevel w; trace := trace w |})
        | None => (Throw (JsValue "dangling reference"), w)
        end
    end.

(** [lspClient!.name(...)] for a read-only lookup. *)
Definition query {A} (client : option ref) (name : string) (m : Method)
    (op : C -> A) : M A :=
  invoke client name m (fun c => (Ok (op c), c)).

Definition createFileUri (filePath : string) : string :=
  "file://" +:+ resolve filePath.

Definition checkLspClientInitialized (client : option ref) : M unit :=
  match client with
  | None =>
      throw (JsError
        "LSP server not started. Call start_lsp first with a root directory.")
  | Some _ => ret tt
  end.


(** *** get_info_on_location *)
Definition get_info_on_location_handler (env : Env)
    (file_path language_id : string) (line column : float) : M ToolResult :=
  debug ;;
  checkLspClientInitialized (lspClient env) ;;
  fileContent ← awaitReadFile file_path;
  let fileUri := createFileUri file_path in
  invoke (lspClient env) "openDocument"
    (MOpenDocument fileUri fileContent language_id)
    (openDocument fileUri fileContent language_id) ;;
  let position := {| line := line - 1; character := column - 1 |} in
  text ← invoke (lspClient env) "getInfoOnLocation"
            (MGetInfoOnLocation fileUri position)
            (getInfoOnLocation fileUri position);
  debug ;;
  ret (textResult text).

(** *** get_completions *)
Definition get_completions_handler (env : Env)
    (file_path language_id : string) (line column : float) : M ToolResult :=
  debug ;;
  checkLspClientInitialized (lspClient env) ;;
  fileContent ← awaitReadFile file_path;
  let fileUri := createFileUri file_path in
  invoke (lspClient env) "openDocument"
    (MOpenDocument fileUri fileContent language_id)
    (openDocument fileUri fileContent language_id) ;;
  let position := {| line := line - 1; character := column - 1 |} in
  completions ← invoke (lspClient env) "getCompletion"
                   (MGetCompletion fileUri position)
                   (getCompletion fileUri position);
  debug ;;
  ret (textResult (stringify (PArray completions))).

(** *** get_code_actions *)
Definition get_code_actions_handler (env : Env)
    (file_path language_id : string)
    (start_line start_column end_line end_column : float) : M ToolResult :=
  debug ;;
  checkLspClientInitialized (lspClient env) ;;
  fileContent ← awaitReadFile file_path;
  let fileUri := createFileUri file_path in
  invoke (lspClient env) "openDocument"
    (MOpenDocument fileUri fileContent language_id)
    (openDocument fileUri fileContent language_id) ;;
  let range :=
    {| start := {| line := start_line - 1; character := start_column - 1 |};
       end_ := {| line := end_line - 1; character := end_column - 1 |} |} in
  codeActions ← invoke (lspClient env) "getCodeActions"
                   (MGetCodeActions fileUri range)
                   (getCodeActions fileUri range);
  debug ;;
  ret (textResult (stringify (PArray codeActions))).

(** *** restart_lsp_server *)
Definition restart_lsp_server_handler (env : Env)
    (root_dir : option string) : M ToolResult :=
  checkLspClientInitialized (lspClient env) ;;
  let restartRootDir := or_else root_dir (rootDir env) in
  info ;;
  try_catch
    ((if truthy root_dir then callSetRootDir (the_string root_dir)
      else ret tt) ;;
     invoke (lspClient env) "restart" (MRestart restartRootDir)
       (restart restartRootDir) ;;
     ret (textResult
       (if truthy root_dir
        then "LSP server successfully restarted and initialized with root directory: "
             +:+ the_string root_dir
        else "LSP server successfully restarted")))
    (fun error =>
       let errorMessage := errorMessage error in
       logError ;;
       throw (JsError ("Failed to restart LSP server: " +:+ errorMessage))).

(** *** start_lsp *)
Definition start_lsp_handler (env : Env)
    (root_dir : option string) : M ToolResult :=
  let startRootDir := or_else root_dir (rootDir env) in
  info ;;
  try_catch
    (callSetRootDir startRootDir ;;
     match lspClient env with
     | None =>
         newClient ← new_LSPClient (lspServerPath env) (lspServerArgs env);
         callSetLspClient newClient
     | Some _ => ret tt
     end ;;
     invoke (lspClient env) "initialize" (MInitialize startRootDir)
       (initialize startRootDir) ;;
     ret (textResult
       ("LSP server successfully started with root directory: "
        +:+ rootDir env)))
    (fun error =>
       let errorMessage := errorMessage error in
       logError ;;
       throw (JsError ("Failed to start LSP server: " +:+ errorMessage))).

(** *** open_document *)
Definition open_document_handler (env : Env)
    (file_path language_id : string) : M ToolResult :=
  debug ;;
  checkLspClientInitialized (lspClient env) ;;
  try_catch
    (fileContent ← awaitReadFile file_path;
     let fileUri := createFileUri file_path in
     invoke (lspClient env) "openDocument"
       (MOpenDocument fileUri fileContent language_id)
       (openDocument fileUri fileContent language_id) ;;
     ret (textResult ("File successfully opened: " +:+ file_path)))
    (fun error =>
       let errorMessage := errorMessage error in
       logError ;;
       throw (JsError ("Failed to open document: " +:+ errorMessage))).

(** *** close_document *)
Definition close_document_handler (env : Env)
    (file_path : string) : M ToolResult :=
  debug ;;
  checkLspClientInitialized (lspClient env) ;;
  try_catch
    (let fileUri := createFileUri file_path in
     invoke (lspClient env) "closeDocument" (MCloseDocument fileUri)
       (closeDocument fileUri) ;;
     ret (textResult ("File successfully closed: " +:+ file_path)))
    (fun error =>
       let errorMessage := errorMessage error in
       logError ;;
       throw (JsError ("Failed to close document: " +:+ errorMessage))).

(** [map.forEach((value, key) => ...)] where the callback updates a local
    variable of type [S]. *)
Fixpoint forEach {V S} (entries : list (string * V))
    (callback : V -> string -> S -> M S) (s : S) : M S :=
  match entries with
  | [] => ret s
  | (key, value) :: rest =>
      s' ← callback value key s;
      forEach rest callback s'
  end.

(** *** get_diagnostics *)
Definition get_diagnostics_handler (env : Env)
    (file_path : option string) : M ToolResult :=
  checkLspClientInitialized (lspClient env) ;;
  try_catch
    (if truthy file_path then
       debug ;;
       let fileUri := createFileUri (the_string file_path) in
       isOpen ← query (lspClient env) "isDocumentOpen"
                  (MIsDocumentOpen fileUri) (isDocumentOpen fileUri);
       (if negb isOpen then
          throw (JsError ("File " +:+ the_string file_path +:+
            " is not open. Please open the file with open_document before requesting diagnostics."))
        else ret tt) ;;
       diagnostics ← query (lspClient env) "getDiagnostics"
                       (MGetDiagnostics fileUri) (getDiagnostics fileUri);
       ret (textResult (stringify (PRecord [(fileUri, diagnostics)])))
     else
       debug ;;
       allDiagnostics ← query (lspClient env) "getAllDiagnostics"
                          MGetAllDiagnostics getAllDiagnostics;
       diagnosticsObject ←
         forEach allDiagnostics
           (fun (value : list Any) (key : string)
                (diagnosticsObject : list (string * list Any)) =>
              isOpen ← query (lspClient env) "isDocumentOpen"
                         (MIsDocumentOpen key) (isDocumentOpen key);
              ret (if isOpen : bool then obj_set key value diagnosticsObject
                   else diagnosticsObject))
           [];
       ret (textResult (stringify (PRecord diagnosticsObject))))
    (fun error =>
       let errorMessage := errorMessage error in
       logError ;;
       throw (JsError ("Failed to get diagnostics: " +:+ errorMessage))).

(** *** set_log_level *)
Definition set_log_level_handler (env : Env)
    (level : LoggingLevel) : M ToolResult :=
  setLogLevel level ;;
  ret (textResult ("Log level set to: " +:+ levelName level)).

(** The table returned by [getToolHandlers], applied to a tool call:
    [getToolHandlers(...)[name].handler(args)]. *)
Definition getToolHandlers (env : Env) (tool : ToolCall) : M ToolResult :=
  match tool with
  | get_info_on_location file_path language_id line column =>
      get_info_on_location_handler env file_path language_id line column
  | get_completions file_path language_id line column =>
      get_completions_handler env file_path language_id line column
  | get_code_actions file_path language_id sl sc el ec =>
      get_code_actions_handler env file_path language_id sl sc el ec
  | restart_lsp_server root_dir => restart_lsp_server_handler env root_dir
  | start_lsp root_dir => start_lsp_handler env root_dir
  | open_document file_path language_id =>
      open_document_handler env file_path language_id
  | close_document file_path => close_document_handler env file_path
  | get_diagnostics file_path => get_diagnostics_handler env file_path
  | set_log_level level => set_log_level_handler env level
  end.

End Handlers.

(** ** The tool definitions *)

(** The argument schemas imported from [../types/index.js]; the handlers
    and the tool definitions refer to them by name. *)
Inductive ArgsSchema :=
| GetInfoOnLocationArgsSchema
| GetCompletionsArgsSchema
| GetCodeActionsArgsSchema
| OpenDocumentArgsSchema
| CloseDocumentArgsSchema
| GetDiagnosticsArgsSchema
| SetLogLevelArgsSchema
| RestartLSPServerArgsSchema
| StartLSPArgsSchema.

(** The keys of the table returned by [getToolHandlers] and the [schema]
    field of each entry, in the order of the source. *)
Definition handlerSchemas : list (string * ArgsSchema) :=
  [ ("get_info_on_location", GetInfoOnLocationArgsSchema);
    ("get_completions", GetCompletionsArgsSchema);
    ("get_code_actions", GetCodeActionsArgsSchema);
    ("restart_lsp_server", RestartLSPServerArgsSchema);
    ("start_lsp", StartLSPArgsSchema);
    ("open_document", OpenDocumentArgsSchema);
    ("close_document", CloseDocumentArgsSchema);
    ("get_diagnostics", GetDiagnosticsArgsSchema);
    ("set_log_level", SetLogLevelArgsSchema) ].

(** The key under which the handler of a tool call is found. *)
Definition toolName (tool : ToolCall) : string :=
  match tool with
  | get_info_on_location _ _ _ _ => "get_info_on_location"
  | get_completions _ _ _ _ => "get_completions"
  | get_code_actions _ _ _ _ _ _ => "get_code_actions"
  | restart_lsp_server _ => "restart_lsp_server"
  | start_lsp _ => "start_lsp"
  | open_document _ _ => "open_document"
  | close_document _ => "close_document"
  | get_diagnostics _ => "get_diagnostics"
  | set_log_level _ => "set_log_level"
  end.

(** An element of the list returned by [getToolDefinitions]; [J] is the
    type of a JSON schema. *)
Record ToolDefinition (J : Type) := {
  name : string;
  description : string;
  inputSchema : J;
}.
Arguments name {J} _.
Arguments description {J} _.
Arguments inputSchema {J} _.

(** [getToolDefinitions], over the [zodToJsonSchema] of the
    [zod-to-json-schema] package. *)
Definition getToolDefinitions {J} (zodToJsonSchema : ArgsSchema -> J)
    : list (ToolDefinition J) :=
  [ {| name := "get_info_on_location";
       description := "Get information on a specific location in a file via LSP hover. Use this tool to retrieve detailed type information, documentation, and other contextual details about symbols in your code. Particularly useful for understanding variable types, function signatures, and module documentation at a specific location in the code. Use this whenever you need to get a better idea on what a particular function is doing in that context. Requires the file to be opened first.";
       inputSchema := zodToJsonSchema GetInfoOnLocationArgsSchema |};
    {| name := "get_completions";
       description := "Get completion suggestions at a specific location in a file. Use this tool to retrieve code completion options based on the current context, including variable names, function calls, object properties, and more. Helpful for code assistance and auto-completion at a particular location. Use this when determining which functions you have available in a given package, for example when changing libraries. Requires the file to be opened first.";
       inputSchema := zodToJsonSchema GetCompletionsArgsSchema |};
    {| name := "get_code_actions";
       description := "Get code actions for a specific range in a file. Use this tool to obtain available refactorings, quick fixes, and other code modifications that can be applied to a selected code range. Examples include adding imports, fixing errors, or implementing interfaces. Requires the file to be opened first.";
       inputSchema := zodToJsonSchema GetCodeActionsArgsSchema |};
    {| name := "restart_lsp_server";
       description := "Restart the LSP server process. Use this tool to reset the LSP server if it becomes unresponsive, has stale data, or when you need to apply configuration changes. Can optionally reinitialize with a new root directory. Useful for troubleshooting language server issues or when switching projects.";
       inputSchema := zodToJsonSchema RestartLSPServerArgsSchema |};
    {| name := "start_lsp";
       description := "Start the LSP server with a specified root directory. IMPORTANT: This tool must be called before using any other LSP functionality. The root directory should point to the project's base folder, which typically contains configuration files like tsconfig.json, package.json, or other language-specific project files. All file paths in other tool calls will be resolved relative to this root.";
       inputSchema := zodToJsonSchema StartLSPArgsSchema |};
    {| name := "open_document";
       description := "Open a file in the LSP server for analysis. Use this tool before performing operations like getting diagnostics, hover information, or completions for a file. The file remains open for continued analysis until explicitly closed. The language_id parameter tells the server which language service to use (e.g., 'typescript', 'javascript', 'haskell').";
       inputSchema := zodToJsonSchema OpenDocumentArgsSchema |};
    {| name := "close_document";
       description := "Close a file in the LSP server. Use this tool when you're done with a file to free up resources and reduce memory usage. It's good practice to close files that are no longer being actively analyzed, especially in long-running sessions or when working with large codebases.";
       inputSchema := zodToJsonSchema CloseDocumentArgsSchema |};
    {| name := "get_diagnostics";
       description := "Get diagnostic messages (errors, warnings) for files. Use this tool to identify problems in code files such as syntax errors, type mismatches, or other issues detected by the language server. When used without a file_path, returns diagnostics for all open files. Requires files to be opened first.";
       inputSchema := zodToJsonSchema GetDiagnosticsArgsSchema |};
    {| name := "set_log_level";
       description := "Set the server logging level. Use this tool to control the verbosity of logs generated by the LSP MCP server. Available levels from least to most verbose: emergency, alert, critical, error, warning, notice, info, debug. Increasing verbosity can help troubleshoot issues but may generate large amounts of output.";
       inputSchema := zodToJsonSchema SetLogLevelArgsSchema |} ].

(** ** The document state store of the client adapter *)

Module DocumentStore.

(** Modelled from the spec: the Document State Store of [src/lspClient.ts],
    which is not among the sources.  The store tracks the open documents
    and the diagnostics cache, and records the notifications it has
    transmitted to the analysis server. *)
Record DocumentState := {
  uri : string;
  languageId : string;
  version : Z;
  contentSnapshot : string;
}.

(** Modelled from the spec: [Diagnostic{range, severity, message,
    source}]. *)
Record Diagnostic := {
  range : Range;
  severity : Z;
  message : string;
  source : string;
}.

(** Modelled from the spec: the notifications sent for documents,
    [textDocument/didOpen] and [textDocument/didClose]. *)
Inductive Notification :=
| DidOpen (uri languageId : string) (version : Z) (text : string)
| DidClose (uri : string).

(** Modelled from the spec: one [DocumentState] per open uri, the
    [DiagnosticsCache] from uri to a sequence of diagnostics, and the
    notifications transmitted so far, oldest first. *)
Record Store := {
  documents : gmap string DocumentState;
  diagnosticsCache : gmap string (list Diagnostic);
  transmitted : list Notification;
}.

(** The store of a client that has opened nothing yet. *)
Definition empty : Store :=
  {| documents := ∅; diagnosticsCache := ∅; transmitted := [] |}.

(** Modelled from the spec: [isOpen(uri) -> bool]. *)
Definition isOpen (u : string) (s : Store) : bool :=
  bool_decide (is_Some (documents s !! u)).

(** Modelled from the spec: [open(uri, content, languageId)].  A tracked
    uri makes the call a no-op; otherwise the document is entered with
    version 1 and a didOpen notification is sent. *)
Definition open (u content lang : string) (s : Store) : Store :=
  match documents s !! u with
  | Some _ => s
  | None =>
      {| documents :=
           <[u := {| uri := u; languageId := lang; version := 1;
                     contentSnapshot := content |}]> (documents s);
         diagnosticsCache := diagnosticsCache s;
         transmitted := transmitted s ++ [DidOpen u lang 1 content] |}
  end.

(** Modelled from the spec: [close(uri)] sends the close notification and
    removes the document entry and its diagnostics; closing a uri that is
    not tracked is a no-op. *)
Definition close (u : string) (s : Store) : Store :=
  match documents s !! u with
  | None => s
  | Some _ =>
      {| documents := delete u (documents s);
         diagnosticsCache := delete u (diagnosticsCache s);
         transmitted := transmitted s ++ [DidClose u] |}
  end.

(** Modelled from the spec: a diagnostics publication replaces the cache
    entry of its uri. *)
Definition publishDiagnostics (u : string) (ds : list Diagnostic)
    (s : Store) : Store :=
  {| documents := documents s;
     diagnosticsCache := <[u := ds]> (diagnosticsCache s);
     transmitted := transmitted s |}.

(** Modelled from the spec: [diagnosticsFor(uri) -> sequence]. *)
Definition diagnosticsFor (u : string) (s : Store) : list Diagnostic :=
  default [] (diagnosticsCache s !! u).

(** The didOpen notifications for [u] among [ns]. *)
Definition isDidOpen (u : string) (n : Notification) : bool :=
  match n with
  | DidOpen u' _ _ _ => String.eqb u' u
  | DidClose _ => false
  end.

Definition didOpens (u : string) (ns : list Notification)
    : list Notification :=
  List.filter (isDidOpen u) ns.

End DocumentStore.

(** ** Hover normalisation *)

Module Hover.

(** Modelled from the spec: the shapes of a hover result ([MarkupContent],
    [MarkedString], or a sequence of [MarkedString]); [src/lspClient.ts],
    which normalises them, is not among the sources. *)
Inductive MarkedString :=
| PlainString (value : string)
| CodeBlock (language value : string).

(** Modelled from the spec: the contents of a hover result, one of
    several textual shapes. *)
Inductive Contents :=
| MarkupContent (kind value : string)
| Marked (m : MarkedString)
| MarkedSequence (ms : list MarkedString).

(** Modelled from the spec: a hover response body; [contents] may be
    [null]. *)
Record Hover := { contents : option Contents }.

Definition markedText (m : MarkedString) : string :=
  match m with
  | PlainString value => value
  | CodeBlock _ value => value
  end.

Fixpoint join (separator : string) (parts : list string) : string :=
  match parts with
  | [] => EmptyString
  | [p] => p
  | p :: rest => p +:+ separator +:+ join separator rest
  end.

(** Modelled from the spec: the normalised output of [hover] is a single
    flattened text string, the empty string when the result is null.  The
    spec does not fix how the elements of a sequence are joined;
    [separator] stands for that choice. *)
Definition normalize (separator : string) (result : option Hover) : string :=
  match result with
  | None => EmptyString
  | Some h =>
      match contents h with
      | None => EmptyString
      | Some (MarkupContent _ value) => value
      | Some (Marked m) => markedText m
      | Some (MarkedSequence ms) => join separator (map markedText ms)
      end
  end.

End Hover.

(** ** The message framer *)

Module Framer.

#[local] Open Scope list_scope.
#[local] Open Scope nat_scope.

(** Modelled from the spec: the Message Framer of [src/lspClient.ts], which
    is not among the sources.  A frame is
    [Content-Length: <N>\r\n\r\n<N-byte body>]; no other header field is
    emitted or required.  A decoded message is kept as its JSON body: the
    JSON reading of a body depends on the body alone. *)
Definition headerEnd : list byte := [x0d; x0a; x0d; x0a].

Definition lengthField : list byte :=
  String.list_byte_of_string "Content-Length: ".

(** A decimal number as ASCII digits, and back. *)
Fixpoint digits (d : Decimal.uint) : list byte :=
  match d with
  | Decimal.Nil => []
  | Decimal.D0 d => x30 :: digits d
  | Decimal.D1 d => x31 :: digits d
  | Decimal.D2 d => x32 :: digits d
  | Decimal.D3 d => x33 :: digits d
  | Decimal.D4 d => x34 :: digits d
  | Decimal.D5 d => x35 :: digits d
  | Decimal.D6 d => x36 :: digits d
  | Decimal.D7 d => x37 :: digits d
  | Decimal.D8 d => x38 :: digits d
  | Decimal.D9 d => x39 :: digits d
  end.

Fixpoint readDigits (l : list byte) : option Decimal.uint :=
  match l with
  | [] => Some Decimal.Nil
  | b :: rest =>
      match readDigits rest with
      | None => None
      | Some d =>
          match b with
          | x30 => Some (Decimal.D0 d)
          | x31 => Some (Decimal.D1 d)
          | x32 => Some (Decimal.D2 d)
          | x33 => Some (Decimal.D3 d)
          | x34 => Some (Decimal.D4 d)
          | x35 => Some (Decimal.D5 d)
          | x36 => Some (Decimal.D6 d)
          | x37 => Some (Decimal.D7 d)
          | x38 => Some (Decimal.D8 d)
          | x39 => Some (Decimal.D9 d)
          | _ => None
          end
      end
  end.

(** Modelled from the spec: [encode] writes a header line declaring the
    exact byte length of the body, a blank line, then the body. *)
Definition encode (body : list byte) : list byte :=
  lengthField ++ digits (Nat.to_uint (length body)) ++ headerEnd ++ body.

(** [p] is a prefix of [l]. *)
Fixpoint startsWith (p l : list byte) : bool :=
  match p, l with
  | [], _ => true
  | _ :: _, [] => false
  | a :: p', b :: l' => Byte.eqb a b && startsWith p' l'
  end.

(** Modelled from the spec: the header ends at the first blank line.
    [splitHeader buf] is the header before it and the bytes after it, when
    [buf] holds one. *)
Fixpoint splitHeader (buf : list byte) : option (list byte * list byte) :=
  match buf with
  | [] => None
  | b :: rest =>
      if startsWith headerEnd buf then Some ([], drop 4 buf)
      else
        match splitHeader rest with
        | Some (header, after) => Some (b :: header, after)
        | None => None
        end
  end.

(** Modelled from the spec: the declared length, when the header is
    [Content-Length: ] followed by one or more decimal digits; any other
    header is malformed. *)
Definition readLength (header : list byte) : option nat :=
  if startsWith lengthField header then
    match readDigits (drop (length lengthField) header) with
    | Some Decimal.Nil | None => None
    | Some d => Some (Nat.of_uint d)
    end
  else None.

(** What the front of the buffer holds: not yet a whole frame, a
    malformed header, or a frame followed by the rest of the buffer. *)
Inductive Step :=
| NeedMore
| Malformed
| Complete (body rest : list byte).

(** Modelled from the spec: a frame is complete once the header, the
    blank line and as many body bytes as the header declares are in the
    buffer. *)
Definition nextFrame (buf : list byte) : Step :=
  match splitHeader buf with
  | None => NeedMore
  | Some (header, after) =>
      match readLength header with
      | None => Malformed
      | Some n =>
          if decide (n ≤ length after)
          then Complete (take n after) (drop n after)
          else NeedMore
      end
  end.

(** Modelled from the spec: what the framer hands on is a message body,
    or the framing-error event after which the connection counts as
    corrupted. *)
Inductive Event :=
| Message (body : list byte)
| FramingError.

(** Modelled from the spec: the framer keeps an accumulating buffer
    across partial reads, until a framing error corrupts the connection. *)
Inductive State :=
| Buffering (buffer : list byte)
| Corrupted.

(** The framer of a new connection. *)
Definition start : State := Buffering [].

(** Modelled from the spec: a chunk may hold several complete messages.
    [drain] takes every complete frame off the front of the buffer.  A
    frame is at least four bytes long, so [length buf] rounds are enough. *)
Fixpoint drain (rounds : nat) (buf : list byte) : list Event * State :=
  match rounds with
  | 0 => ([], Buffering buf)
  | S rounds' =>
      match nextFrame buf with
      | NeedMore => ([], Buffering buf)
      | Malformed => ([FramingError], Corrupted)
      | Complete body rest =>
          let '(events, st) := drain rounds' rest in
          (Message body :: events, st)
      end
  end.

(** Modelled from the spec: [feed(bytes)] appends the chunk to the
    accumulating buffer and produces the messages that are now complete. *)
Definition feed (st : State) (chunk : list byte) : list Event * State :=
  match st with
  | Corrupted => ([], Corrupted)
  | Buffering buffer =>
      let buf := buffer ++ chunk in
      drain (length buf) buf
  end.

(** Feeding a sequence of chunks, one at a time. *)
Fixpoint feedAll (st : State) (chunks : list (list byte))
    : list Event * State :=
  match chunks with
  | [] => ([], st)
  | chunk :: rest =>
      let '(events, st') := feed st chunk in
      let '(events', st'') := feedAll st' rest in
      (events ++ events', st'')
  end.

(** A state is settled when its buffer holds no complete frame and no
    malformed header: every state [feed] leaves is. *)
Definition settled (st : State) : Prop :=
  match st with
  | Buffering buffer => nextFrame buffer = NeedMore
  | Corrupted => True
  end.

End Framer.

(** ** A reference client and host *)

Module Reference.

(** The values an analysis server returns, as far as the handlers are
    concerned. *)
Inductive Value :=
| Completion (label : string)
| CodeAction (title : string)
| Diag (d : DocumentStore.Diagnostic).

(** The answers of the analysis server to the three requests. *)
Record Server := {
  hoverAt : string -> Position -> option Hover.Hover;
  completionsAt : string -> Position -> list Value;
  codeActionsAt : string -> Range -> list Value;
}.

(** Modelled from the spec: the client facade of [src/lspClient.ts], which
    is not among the sources.  Before the initialize handshake every
    request and every open or close is rejected locally; [restart] clears
    the document state and the diagnostics cache and runs the handshake
    again; the lookups read the document store. *)
Record Client := {
  initialized : bool;
  root : string;
  store : DocumentStore.Store;
  server : Server;
}.

Definition notInitialized : Thrown := JsError "NotInitialized".

Definition whenInitialized {A} (c : Client) (k : Result A * Client)
    : Result A * Client :=
  if initialized c then k else (Throw notInitialized, c).

Definition withStore (c : Client) (s : DocumentStore.Store) : Client :=
  {| initialized := initialized c; root := root c; store := s;
     server := server c |}.

Definition handshake (dir : string) (s : DocumentStore.Store) (c : Client)
    : Client :=
  {| initialized := true; root := dir; store := s; server := server c |}.

(** The elements of a hover sequence are joined by a line feed. *)
Definition separator : string := String (Ascii.ascii_of_nat 10) EmptyString.

(** Modelled from the spec: the operations of the client facade, for a
    client that talks to the analysis server [srv].  The restriction of
    the diagnostics to open documents is left to the caller of
    [getAllDiagnostics]. *)
Definition referenceClient (srv : Server)
    : LSPClientOps Client Value := {|
  newLSPClient _ _ :=
    Ok {| initialized := false; root := EmptyString;
          store := DocumentStore.empty; server := srv |};
  initialize dir c := (Ok tt, handshake dir (store c) c);
  restart dir c := (Ok tt, handshake dir DocumentStore.empty c);
  openDocument u content lang c :=
    whenInitialized c
      (Ok tt, withStore c (DocumentStore.open u content lang (store c)));
  closeDocument u c :=
    whenInitialized c (Ok tt, withStore c (DocumentStore.close u (store c)));
  getInfoOnLocation u position c :=
    whenInitialized c
      (Ok (Hover.normalize separator (hoverAt (server c) u position)), c);
  getCompletion u position c :=
    whenInitialized c (Ok (completionsAt (server c) u position), c);
  getCodeActions u range c :=
    whenInitialized c (Ok (codeActionsAt (server c) u range), c);
  isDocumentOpen u c := DocumentStore.isOpen u (store c);
  getDiagnostics u c := map Diag (DocumentStore.diagnosticsFor u (store c));
  getAllDiagnostics c :=
    map_to_list (map Diag <$> DocumentStore.diagnosticsCache (store c));
|}.

(** A host that keeps the client reference and the root directory in two
    variables, which the callbacks assign. *)
Record Host := {
  hostClient : option ref;
  hostRootDir : string;
}.

Definition setLspClient (client : ref) (h : Host) : Host :=
  {| hostClient := Some client; hostRootDir := hostRootDir h |}.

Definition setRootDir (dir : string) (h : Host) : Host :=
  {| hostClient := hostClient h; hostRootDir := dir |}.

(** A POSIX [path.resolve] for a process whose working directory is
    [/work]: an absolute path is kept, a relative one is appended to the
    working directory, the empty path is the working directory. *)
Definition resolve (p : string) : string :=
  match p with
  | EmptyString => "/work"
  | String "/"%char _ => p
  | _ => "/work/" +:+ p
  end.

(** A file system with one readable file. *)
Definition readFile (p : string) : Result string :=
  if String.eqb p "/project/a.hs" then Ok "main = print 1"
  else Throw (JsError ("ENOENT: no such file or directory, open '" +:+ p +:+ "'")).

(** A stand-in for [JSON.stringify]: the keys of a record, or the number
    of elements of an array as a run of [*]. *)
Definition stringify (p : Payload Value) : string :=
  match p with
  | PArray items => Hover.join EmptyString (map (fun _ => "*") items)
  | PRecord fields => Hover.join "," (map fst fields)
  end.

(** An analysis server for a Haskell project. *)
Definition demoServer : Server := {|
  hoverAt _ _ :=
    Some {| Hover.contents :=
              Some (Hover.MarkupContent "markdown" "main :: IO ()") |};
  completionsAt _ _ := [Completion "foo"; Completion "bar"];
  codeActionsAt _ _ := [CodeAction "Add import"];
|}.

Definition demoDiagnostic : DocumentStore.Diagnostic := {|
  DocumentStore.range :=
    {| start := {| line := 0; character := 0 |};
       end_ := {| line := 0; character := 4 |} |};
  DocumentStore.severity := 1;
  DocumentStore.message := "Variable not in scope";
  DocumentStore.source := "typecheck";
|}.

(** The client class of the demo host: a new client talks to
    [demoServer]. *)
#[global] Instance demoOps : LSPClientOps Client Value :=
  referenceClient demoServer.

(** A client after the handshake, with [/project/a.hs] open and
    diagnostics cached for it and for a file that is not open. *)
Definition demoClient : Client := {|
  initialized := true;
  root := "/project";
  store :=
    DocumentStore.publishDiagnostics "file:///project/b.hs" [demoDiagnostic]
      (DocumentStore.publishDiagnostics "file:///project/a.hs"
         [demoDiagnostic]
         (DocumentStore.open "file:///project/a.hs" "main = print 1"
            "haskell" DocumentStore.empty));
  server := demoServer;
|}.

Definition demoEnv (client : option ref) : Env := {|
  lspClient := client;
  lspServerPath := "/usr/bin/haskell-language-server-wrapper";
  lspServerArgs := ["lsp"];
  rootDir := "/project";
|}.

(** The world in which the host has started its client. *)
Definition demoWorld : World := {|
  host := {| hostClient := Some 0%nat; hostRootDir := "/project" |};
  heap := [demoClient];
  logLevel := Info;
  trace := [];
|}.

(** The world before [start_lsp]: no client exists. *)
Definition freshWorld : @World Host Client := {|
  host := {| hostClient := None; hostRootDir := "." |};
  heap := [];
  logLevel := Info;
  trace := [];
|}.

(** A server that answers every hover request with a result whose
    contents are [null]. *)
Definition silentServer : Server := {|
  hoverAt _ _ := Some {| Hover.contents := None |};
  completionsAt _ _ := [];
  codeActionsAt _ _ := [];
|}.

Definition silentWorld : World := {|
  host := {| hostClient := Some 0%nat; hostRootDir := "/project" |};
  heap := [ {| initialized := true; root := "/project";
               store := DocumentStore.empty; server := silentServer |} ];
  logLevel := Info;
  trace := [];
|}.

(** The handlers of the demo host. *)
Definition handlers (client : option ref)
    : ToolCall -> @M Host Client ToolResult :=
  getToolHandlers setLspClient setRootDir resolve readFile stringify (demoEnv client).

End Reference.

(** The world of a host whose client has been constructed but has not
    been through the handshake. *)
Definition coldWorld : @World Reference.Host Reference.Client := {|
  host := {| Reference.hostClient := Some 0%nat;
             Reference.hostRootDir := "/project" |};
  heap := [ {| Reference.initialized := false;
               Reference.root := EmptyString;
               Reference.store := DocumentStore.empty;
               Reference.server := Reference.demoServer |} ];
  logLevel := Info;
  trace := [];
|}.

(** ** Vocabulary of the properties *)

(** The error of [checkLspClientInitialized]. *)
Definition notStarted : Thrown :=
  JsError "LSP server not started. Call start_lsp first with a root directory.".

(** The tools whose handler starts by checking that a client exists: all
    but [start_lsp] and [set_log_level]. *)
Definition requiresClient (tool : ToolCall) : bool :=
  match tool with
  | start_lsp _ | set_log_level _ => false
  | _ => true
  end.

(** The calls a handler makes before that check. *)
Definition beforeCheck (tool : ToolCall) : list Call :=
  match tool with
  | get_info_on_location _ _ _ _ | get_completions _ _ _ _
  | get_code_actions _ _ _ _ _ _ | open_document _ _ | close_document _ =>
      [Log Debug]
  | _ => []
  end.

(** The line and column numbers a tool call supplies, and the ones a
    client method receives. *)
Definition supplied (tool : ToolCall) : option (list float) :=
  match tool with
  | get_info_on_location _ _ l c | get_completions _ _ l c => Some [l; c]
  | get_code_actions _ _ sl sc el ec => Some [sl; sc; el; ec]
  | _ => None
  end.

Definition coordinates (m : Method) : option (list float) :=
  match m with
  | MGetInfoOnLocation _ p | MGetCompletion _ p =>
      Some [line p; character p]
  | MGetCodeActions _ r =>
      Some [line (start r); character (start r);
            line (end_ r); character (end_ r)]
  | _ => None
  end.

(** [c] hands no coordinates to a client, or hands it exactly [xs]. *)
Definition passes (xs : list float) (c : Call) : Prop :=
  match c with
  | ClientCall _ m =>
      match coordinates m with
      | Some cs => cs = xs
      | None => True
      end
  | _ => True
  end.

(** What [restart_lsp_server] resolves or rejects with, given the outcome
    of [lspClient.restart]. *)
Definition restartOutcome (res : Result unit) (okText : string)
    : Result ToolResult :=
  match res with
  | Ok _ => Ok (textResult okText)
  | Throw e =>
      Throw (JsError ("Failed to restart LSP server: " +:+ errorMessage e))
  end.

(** The call to [logError] of a [catch] block. *)
Definition errorLog {A} (res : Result A) : list Call :=
  match res with
  | Ok _ => []
  | Throw _ => [Log Error]
  end.

(** The error of [get_diagnostics] for a file that is not open, as
    rethrown by its [catch] block. *)
Definition notOpen (file_path : string) : Thrown :=
  JsError ("Failed to get diagnostics: " +:+
    ("File " +:+ file_path +:+
     " is not open. Please open the file with open_document before requesting diagnostics.")).

(** ** Vocabulary of the further properties *)

(** The file a tool reads with [fs.readFile]. *)
Definition readsFile (tool : ToolCall) : option string :=
  match tool with
  | get_info_on_location fp _ _ _ | get_completions fp _ _ _
  | get_code_actions fp _ _ _ _ _ | open_document fp _ => Some fp
  | _ => None
  end.

(** The [file_path] a tool turns into a uri with [createFileUri]. *)
Definition filePathOf (tool : ToolCall) : option string :=
  match tool with
  | get_info_on_location fp _ _ _ | get_completions fp _ _ _
  | get_code_actions fp _ _ _ _ _ | open_document fp _
  | close_document fp => Some fp
  | get_diagnostics fp => if truthy fp then fp else None
  | _ => None
  end.

(** The [language_id] a tool hands to [openDocument]. *)
Definition languageOf (tool : ToolCall) : option string :=
  match tool with
  | get_info_on_location _ lang _ _ | get_completions _ lang _ _
  | get_code_actions _ lang _ _ _ _ | open_document _ lang => Some lang
  | _ => None
  end.

(** The tools that may call [setRootDir]: [start_lsp], and
    [restart_lsp_server] when its [root_dir] is truthy. *)
Definition storesRootDir (tool : ToolCall) : bool :=
  match tool with
  | start_lsp _ => true
  | restart_lsp_server root_dir => truthy root_dir
  | _ => false
  end.

(** The text a tool's [catch] block puts before the message of the error
    it caught; the three location tools and [set_log_level] have no
    [catch] block. *)
Definition catchPrefix (tool : ToolCall) : option string :=
  match tool with
  | restart_lsp_server _ => Some "Failed to restart LSP server: "
  | start_lsp _ => Some "Failed to start LSP server: "
  | open_document _ _ => Some "Failed to open document: "
  | close_document _ => Some "Failed to close document: "
  | get_diagnostics _ => Some "Failed to get diagnostics: "
  | _ => None
  end.

(** The uri a client method is given. *)
Definition uriOf (m : Method) : option string :=
  match m with
  | MOpenDocument u _ _ | MCloseDocument u | MGetInfoOnLocation u _
  | MGetCompletion u _ | MGetCodeActions u _ | MIsDocumentOpen u
  | MGetDiagnostics u => Some u
  | MInitialize _ | MRestart _ | MGetAllDiagnostics => None
  end.

Definition isReadFile (c : Call) : bool :=
  match c with
  | ReadFile _ => true
  | _ => false
  end.

Section Footprint.

Variable resolve : string -> string.
Variable readFile : string -> Result string.

(** The client methods a tool may invoke, with the arguments it may give
    them. *)
Definition mayInvoke (env : Env) (tool : ToolCall) (m : Method) : Prop :=
  match m with
  | MOpenDocument u content lang =>
      exists fp, readsFile tool = Some fp ∧ u = createFileUri resolve fp ∧
                 readFile fp = Ok content ∧ languageOf tool = Some lang
  | MGetInfoOnLocation u _ =>
      exists fp lang l k, tool = get_info_on_location fp lang l k ∧
                          u = createFileUri resolve fp
  | MGetCompletion u _ =>
      exists fp lang l k, tool = get_completions fp lang l k ∧
                          u = createFileUri resolve fp
  | MGetCodeActions u _ =>
      exists fp lang sl sc el ec,
        tool = get_code_actions fp lang sl sc el ec ∧
        u = createFileUri resolve fp
  | MCloseDocument u =>
      exists fp, tool = close_document fp ∧ u = createFileUri resolve fp
  | MRestart dir =>
      exists root_dir, tool = restart_lsp_server root_dir ∧
                       dir = or_else root_dir (rootDir env)
  | MInitialize dir =>
      exists root_dir, tool = start_lsp root_dir ∧
                       dir = or_else root_dir (rootDir env)
  | MIsDocumentOpen u =>
      exists fp, tool = get_diagnostics fp ∧
                 (truthy fp = true -> u = createFileUri resolve (the_string fp))
  | MGetDiagnostics u =>
      exists fp, tool = get_diagnostics fp ∧ truthy fp = true ∧
                 u = createFileUri resolve (the_string fp)
  | MGetAllDiagnostics =>
      exists fp, tool = get_diagnostics fp ∧ truthy fp = false
  end.

(** The calls a tool may make. *)
Definition mayCall (env : Env) (tool : ToolCall) (c : Call) : Prop :=
  match c with
  | Log _ => forall level, tool ≠ set_log_level level
  | SetLogLevel level => tool = set_log_level level
  | ReadFile path => readsFile tool = Some path
  | SetRootDir dir =>
      (exists root_dir, tool = start_lsp root_dir ∧
                        dir = or_else root_dir (rootDir env)) ∨
      (exists root_dir, tool = restart_lsp_server root_dir ∧
                        truthy root_dir = true ∧ dir = the_string root_dir)
  | NewLSPClient _ path args =>
      (exists root_dir, tool = start_lsp root_dir) ∧ lspClient env = None ∧
      path = lspServerPath env ∧ args = lspServerArgs env
  | SetLspClient _ =>
      (exists root_dir, tool = start_lsp root_dir) ∧ lspClient env = None
  | ClientCall r m => lspClient env = Some r ∧ mayInvoke env tool m
  end.

End Footprint.

(** The error a tool throws when a step inside it threw [e]: wrapped by
    the tool's [catch] block, or [e] itself when the tool has none. *)
Definition rethrown (tool : ToolCall) (e : Thrown) : Thrown :=
  match catchPrefix tool with
  | Some prefix => JsError (prefix +:+ errorMessage e)
  | None => e
  end.

(** The error a result carries, if any. *)
Definition thrown {A} (res : Result A) : option Thrown :=
  match res with
  | Throw e => Some e
  | Ok _ => None
  end.

Section Caught.

Context {C Any : Type} {ops : LSPClientOps C Any}.

Variable resolve : string -> string.
Variable readFile : string -> Result string.

(** The error that the [catch] block of a tool catches when the tool runs
    with the client object [c]: the error of the first step of its [try]
    block that throws, [None] when no step does.  The steps that can
    throw are [fs.readFile], the methods [restart], [initialize],
    [openDocument] and [closeDocument] of the client, and the [throw] of
    [get_diagnostics] for a file that is not open. *)
Definition caught (env : Env) (tool : ToolCall) (c : C) : option Thrown :=
  match tool with
  | restart_lsp_server root_dir =>
      thrown (restart (or_else root_dir (rootDir env)) c).1
  | start_lsp root_dir =>
      thrown (initialize (or_else root_dir (rootDir env)) c).1
  | open_document file_path language_id =>
      match readFile file_path with
      | Throw e => Some e
      | Ok fileContent =>
          thrown (openDocument (createFileUri resolve file_path)
                    fileContent language_id c).1
      end
  | close_document file_path =>
      thrown (closeDocument (createFileUri resolve file_path) c).1
  | get_diagnostics file_path =>
      if truthy file_path then
        if isDocumentOpen (createFileUri resolve (the_string file_path)) c
        then None
        else Some (JsError ("File " +:+ the_string file_path +:+
          " is not open. Please open the file with open_document before requesting diagnostics."))
      else None
  | _ => None
  end.

End Caught.

(** A call to one of the two callbacks of the host. *)
Definition isHostCall (c : Call) : bool :=
  match c with
  | SetRootDir _ | SetLspClient _ => true
  | _ => false
  end.

(** * Properties *)

(** ** JavaScript numbers *)

Module NumberFacts.

#[local] Open Scope Z_scope.

#[local] Abbreviation digits := SpecFloat.digits2_pos.

Lemma shiftl_nat_shiftl_nat q j k :
  Pos.shiftl_nat (Pos.shiftl_nat q k) j = Pos.shiftl_nat q (j + k).
Proof. induction j as [|j IH]; simpl; [done|]. by rewrite IH. Qed.

Lemma iter_xO m j : Pos.iter xO m j = Pos.shiftl_nat m (Pos.to_nat j).
Proof. by rewrite Pos2Nat.inj_iter. Qed.

Lemma digits_shiftl_nat q k :
  Zpos (digits (Pos.shiftl_nat q k)) = Zpos (digits q) + Z.of_nat k.
Proof.
  induction k as [|k IH]; [simpl; lia|].
  change (Pos.shiftl_nat q (S k)) with (xO (Pos.shiftl_nat q k)).
  cbn [SpecFloat.digits2_pos]. lia.
Qed.

Lemma Zpos_shiftl_nat q k :
  Zpos (Pos.shiftl_nat q k) = Zpos q * 2 ^ Z.of_nat k.
Proof.
  induction k as [|k IH]; [simpl; lia|].
  change (Pos.shiftl_nat q (S k)) with (xO (Pos.shiftl_nat q k)).
  rewrite Pos2Z.inj_xO, IH, Nat2Z.inj_succ, Z.pow_succ_r by lia. lia.
Qed.

Lemma digits_bounds p :
  2 ^ (Zpos (digits p) - 1) <= Zpos p < 2 ^ Zpos (digits p).
Proof.
  induction p as [p IH|p IH|]; cbn [SpecFloat.digits2_pos]; [| |simpl; lia].
  - rewrite Pos2Z.inj_succ, Z.pow_succ_r by lia.
    replace (Z.succ (Zpos (digits p)) - 1) with (Z.succ (Zpos (digits p) - 1))
      by lia.
    rewrite Z.pow_succ_r by lia. lia.
  - rewrite Pos2Z.inj_succ, Z.pow_succ_r by lia.
    replace (Z.succ (Zpos (digits p)) - 1) with (Z.succ (Zpos (digits p) - 1))
      by lia.
    rewrite Z.pow_succ_r by lia. lia.
Qed.

Lemma digits_le p k : 0 <= k -> Zpos p < 2 ^ k -> Zpos (digits p) <= k.
Proof.
  intros Hk Hp. destruct (Z_le_gt_dec (Zpos (digits p)) k) as [|Hgt]; [done|].
  pose proof (digits_bounds p) as [Hlow _].
  assert (2 ^ k <= 2 ^ (Zpos (digits p) - 1)) by (apply Z.pow_le_mono_r; lia).
  lia.
Qed.

Lemma iter_pos_nat {A} (f : A -> A) p x :
  SpecFloat.iter_pos f p x = Nat.iter (Pos.to_nat p) f x.
Proof.
  revert x. induction p as [p IH|p IH|]; intros x; cbn [SpecFloat.iter_pos].
  - rewrite !IH, Pos2Nat.inj_xI. 
    replace (S (2 * Pos.to_nat p)) with (Pos.to_nat p + (Pos.to_nat p + 1))%nat by lia.
    rewrite !Nat.iter_add. simpl. done.
  - rewrite !IH, Pos2Nat.inj_xO.
    replace (2 * Pos.to_nat p)%nat with (Pos.to_nat p + Pos.to_nat p)%nat by lia.
    by rewrite Nat.iter_add.
  - done.
Qed.

Lemma shr_zeros q j r :
  Nat.iter j shr_1
    (Build_shr_record (Zpos (Pos.shiftl_nat q (j + r))) false false) =
  Build_shr_record (Zpos (Pos.shiftl_nat q r)) false false.
Proof.
  induction j as [|j IH]; [done|].
  rewrite Nat.iter_succ_r. 
  change (Pos.shiftl_nat q (S j + r)) with (xO (Pos.shiftl_nat q (j + r))).
  cbn [shr_1 orb]. apply IH.
Qed.


Lemma fexp_normal d : -1074 <= d - 53 -> fexp prec emax d = d - 53.
Proof. unfold fexp, SpecFloat.emin, prec, emax. lia. Qed.

Lemma shr_fexp_exact q k e :
  let d := Zpos (digits q) in
  d <= 53 -> 53 <= d + Z.of_nat k -> -1074 <= d + Z.of_nat k + e - 53 ->
  shr_fexp prec emax (Zpos (Pos.shiftl_nat q k)) e loc_Exact =
    (Build_shr_record (Zpos (Pos.shiftl_nat q (Z.to_nat (53 - d)))) false false,
     d + Z.of_nat k + e - 53).
Proof.
  intros d Hd HD He. unfold shr_fexp, Zdigits2.
  rewrite digits_shiftl_nat, fexp_normal by (fold d; lia). fold d.
  cbn [shr_record_of_loc]. unfold shr.
  destruct (d + Z.of_nat k + e - 53 - e) as [|j|j] eqn:Hj; [|     |lia].
  - replace k with (Z.to_nat (53 - d)) by lia. f_equal. lia.
  - rewrite iter_pos_nat.
    replace k with (Pos.to_nat j + Z.to_nat (53 - d))%nat at 1 by lia.
    rewrite shr_zeros. f_equal. lia.
Qed.

(** Rounding a mantissa [q * 2^k] whose odd part [q] has at most 53 digits
    loses nothing: the result is [q] shifted to 53 digits. *)
Lemma binary_round_exact s q k e :
  let d := Zpos (digits q) in
  d <= 53 -> -1074 <= d + Z.of_nat k + e - 53 <= 971 ->
  binary_round prec emax s (Pos.shiftl_nat q k) e =
    S754_finite s (Pos.shiftl_nat q (Z.to_nat (53 - d)))
      (d + Z.of_nat k + e - 53).
Proof.
  intros d Hd He. unfold binary_round.
  assert (Hc : forall m e0,
    shr_fexp prec emax (Zpos m) e0 loc_Exact =
      (Build_shr_record (Zpos (Pos.shiftl_nat q (Z.to_nat (53 - d))))
         false false, d + Z.of_nat k + e - 53) ->
    binary_round_aux prec emax s (Zpos m) e0 loc_Exact =
      S754_finite s (Pos.shiftl_nat q (Z.to_nat (53 - d)))
        (d + Z.of_nat k + e - 53)).
  { intros m e0 Hshr. unfold binary_round_aux. rewrite Hshr.
    cbn [shr_m shr_r shr_s loc_of_shr_record round_nearest_even].
    pose proof (shr_fexp_exact q (Z.to_nat (53 - d))
                  (d + Z.of_nat k + e - 53)) as Hfix.
    cbn zeta in Hfix. fold d in Hfix.
    rewrite Hfix by lia. cbn [shr_m].
    replace (d + Z.of_nat (Z.to_nat (53 - d)) + (d + Z.of_nat k + e - 53) - 53)
      with (d + Z.of_nat k + e - 53) by lia.
    replace (d + Z.of_nat k + e - 53 <=? emax - prec) with true; [done|].
    symmetry. apply Z.leb_le. unfold emax, prec. lia. }
  rewrite digits_shiftl_nat, fexp_normal by (fold d; lia). fold d.
  unfold shl_align.
  destruct (d + Z.of_nat k + e - 53 - e) as [|j|j] eqn:Hj.
  - apply Hc. pose proof (shr_fexp_exact q k e) as Hx. cbn zeta in Hx.
    fold d in Hx. apply Hx; lia.
  - apply Hc. pose proof (shr_fexp_exact q k e) as Hx. cbn zeta in Hx.
    fold d in Hx. apply Hx; lia.
  - apply Hc. rewrite iter_xO, shiftl_nat_shiftl_nat.
    pose proof (shr_fexp_exact q (Pos.to_nat j + k)
                  (d + Z.of_nat k + e - 53)) as Hx. cbn zeta in Hx.
    fold d in Hx. rewrite Hx by lia. f_equal. lia.
Qed.


(** The double of a positive integer up to 2^53: its mantissa and exponent. *)
Lemma normalize_pos p :
  Zpos p <= 2 ^ 53 ->
  exists mx ex,
    binary_normalize prec emax (Zpos p) 0 false = S754_finite false mx ex ∧
    Zpos (digits mx) = 53 ∧ -52 <= ex <= 1 ∧
    Zpos mx * 2 ^ (ex + 52) = Zpos p * 2 ^ 52.
Proof.
  intros Hp. cbn [binary_normalize].
  destruct (Z_lt_le_dec (Zpos p) (2 ^ 53)) as [Hlt|Hge].
  - pose proof (digits_le p 53 ltac:(lia) Hlt) as Hd.
    pose proof (binary_round_exact false p 0 0) as Hr. cbn zeta in Hr.
    change (Pos.shiftl_nat p 0) with p in Hr.
    rewrite Hr by (change (Z.of_nat 0) with 0; lia).
    eexists _, _. split; [done|]. rewrite digits_shiftl_nat, Zpos_shiftl_nat.
    split; [lia|]. split; [change (Z.of_nat 0) with 0; lia|].
    change (Z.of_nat 0) with 0. rewrite <- Z.mul_assoc, <- Z.pow_add_r by lia.
    f_equal. f_equal. lia.
  - assert (p = Pos.shiftl_nat 1 53) as ->
      by (apply Pos2Z.inj; rewrite Zpos_shiftl_nat;
          change (Z.of_nat 53) with 53; lia).
    pose proof (binary_round_exact false 1 53 0) as Hr. cbn zeta in Hr.
    rewrite Hr by (vm_compute; try split; discriminate).
    eexists _, _. split; [done|]. by vm_compute.
Qed.

Lemma normalize_valid n :
  0 <= n <= 2 ^ 53 ->
  valid_binary (binary_normalize prec emax n 0 false) = true.
Proof.
  intros Hn. destruct n as [|p|p]; [done| |lia].
  destruct (normalize_pos p) as (mx & ex & -> & Hd & He & _); [lia|].
  unfold valid_binary. cbn [SpecFloat.valid_binary].
  unfold bounded, canonical_mantissa.
  rewrite Hd, fexp_normal by lia.
  apply andb_true_intro. split; [apply Z.eqb_eq; lia|].
  apply Z.leb_le. unfold emax, prec. lia.
Qed.

(** Subtracting one from an integer double up to 2^53 is exact. *)
Lemma SFsub_one n :
  1 <= n <= 2 ^ 53 ->
  SFsub prec emax (binary_normalize prec emax n 0 false)
    (binary_normalize prec emax 1 0 false) =
  binary_normalize prec emax (n - 1) 0 false.
Proof.
  intros Hn. destruct n as [|p|p]; [lia| |lia].
  destruct (normalize_pos p) as (mx & ex & -> & Hd & He & Hv); [lia|].
  change (binary_normalize prec emax 1 0 false)
    with (S754_finite false (Pos.shiftl_nat 1 52) (-52)).
  cbn [SFsub cond_Zopp]. replace (Z.min ex (-52)) with (-52) by lia.
  replace (fst (shl_align (Pos.shiftl_nat 1 52) (-52) (-52)))
    with (Pos.shiftl_nat 1 52) by done.
  assert (Hx : Zpos (fst (shl_align mx ex (-52))) = Zpos p * 2 ^ 52).
  { unfold shl_align. destruct (-52 - ex) as [|j|j] eqn:Hj; [|lia|]; cbn [fst].
    - rewrite <- Hv. replace (ex + 52) with 0 by lia. lia.
    - rewrite iter_xO, Zpos_shiftl_nat, <- Hv. f_equal. f_equal. lia. }
  rewrite Hx, Zpos_shiftl_nat. change (Z.of_nat 52) with 52.
  replace (Zpos p * 2 ^ 52 - 1 * 2 ^ 52) with ((Zpos p - 1) * 2 ^ 52) by lia.
  destruct (Zpos p - 1) as [|p'|p'] eqn:Hp'; [done| |lia].
  replace (Zpos p' * 2 ^ 52) with (Zpos (Pos.shiftl_nat p' 52))
    by (by rewrite Zpos_shiftl_nat).
  cbn [binary_normalize].
  assert (Hd' : Zpos (digits p') <= 53) by (apply digits_le; lia).
  pose proof (binary_round_exact false p' 52 (-52)) as H1.
  pose proof (binary_round_exact false p' 0 0) as H2. cbn zeta in H1, H2.
  change (Pos.shiftl_nat p' 0) with p' in H2.
  change (Z.of_nat 52) with 52 in H1. change (Z.of_nat 0) with 0 in H2.
  rewrite H1, H2 by lia. f_equal. lia.
Qed.

Lemma Prim2SF_number n :
  0 <= n <= 2 ^ 53 ->
  Prim2SF (number n) = binary_normalize prec emax n 0 false.
Proof. intros Hn. apply Prim2SF_SF2Prim, normalize_valid, Hn. Qed.

(** JavaScript's [n - 1] on an integer number [n] between 1 and 2^53 is the
    integer [n - 1]. *)
Lemma number_minus_one n :
  1 <= n <= 2 ^ 53 -> (number n - 1)%float = number (n - 1).
Proof.
  intros Hn. apply Prim2SF_inj.
  rewrite sub_spec, !Prim2SF_number by lia.
  replace (Prim2SF 1) with (binary_normalize prec emax 1 0 false)
    by (vm_compute; reflexivity).
  apply SFsub_one, Hn.
Qed.


(** An integer up to 2^53 is a number, exactly. *)
Lemma number_exact n : 0 <= n <= 2 ^ 53 -> integerValue (number n) = Some n.
Proof.
  intros Hn. unfold integerValue. rewrite Prim2SF_number by done.
  destruct n as [|p|p]; [done| |lia].
  destruct (normalize_pos p) as (mx & ex & -> & _ & He & Hv); [lia|].
  cbn [cond_Zopp]. destruct (Z.leb_spec 0 ex) as [Hex|Hex].
  - f_equal. replace (ex + 52) with (52 + ex) in Hv by lia.
    rewrite Z.pow_add_r, (Z.mul_comm (2 ^ 52)), Z.mul_assoc in Hv by lia.
    apply Z.mul_reg_r in Hv; [done|lia].
  - assert (Hmx : Zpos mx = Zpos p * 2 ^ (- ex)).
    { assert (E : 2 ^ 52 = 2 ^ (- ex) * 2 ^ (ex + 52))
        by (rewrite <- Z.pow_add_r by lia; f_equal; lia).
      rewrite E, Z.mul_assoc in Hv.
      apply Z.mul_reg_r in Hv; [done|]. apply Z.pow_nonzero; lia. }
    assert (2 ^ (- ex) <> 0) by (apply Z.pow_nonzero; lia).
    rewrite Hmx, Z.mod_mul, Z.eqb_refl, Z.div_mul by done. done.
Qed.

End NumberFacts.

(** ** The tool handlers *)

(** Runs a handler symbolically, up to the first call whose outcome is not
    known. *)
Ltac run :=
  unfold getToolHandlers, get_info_on_location_handler,
    get_completions_handler, get_code_actions_handler,
    restart_lsp_server_handler, start_lsp_handler, open_document_handler,
    close_document_handler, get_diagnostics_handler, set_log_level_handler,
    checkLspClientInitialized, awaitReadFile, new_LSPClient, query, invoke,
    callSetRootDir, callSetLspClient, setLogLevel, debug, info, logError,
    call, emit, try_catch, throw, ret, mbind, M_bind, bind;
  simpl.

Section HandlerFacts.

Context {H C Any : Type} {ops : LSPClientOps C Any}.

Variable setLspClient : ref -> H -> H.
Variable setRootDir : string -> H -> H.
Variable resolve : string -> string.
Variable readFile : string -> Result string.
Variable stringify : Payload Any -> string.

#[local] Notation "'handlers'" :=
  (getToolHandlers setLspClient setRootDir resolve readFile stringify).

Implicit Types (w : @World H C) (env : Env) (tool : ToolCall).

(** The world [w] after the calls [calls]. *)
#[local] Notation "'after' w calls" :=
  {| host := host w; heap := heap w; logLevel := logLevel w;
     trace := trace w ++ calls |}
  (at level 10, w at level 9, calls at level 9).

#[local] Existing Instances M_ret M_bind.

(** C10.  For every level, and whether or not a client exists or has been
    initialized, [set_log_level] returns its confirmation and never the
    not-started error; the only call it makes is [setLogLevel(level)],
    which is no call to a client, and its only effect is the new log
    level. *)
Theorem set_log_level_always_succeeds env level w :
  handlers env (set_log_level level) w =
    (Ok (textResult ("Log level set to: " +:+ levelName level)),
     {| host := host w; heap := heap w; logLevel := level;
        trace := trace w ++ [SetLogLevel level] |}) ∧
  (handlers env (set_log_level level) w).1 ≠ Throw notStarted ∧
  Forall (fun c => isClientCall c = false) [SetLogLevel level].
Proof.
  split; [reflexivity|]. split; [discriminate|].
  by repeat constructor.
Qed.

(** C1.  When no client exists, each of [get_info_on_location],
    [get_completions], [get_code_actions], [restart_lsp_server],
    [open_document], [close_document] and [get_diagnostics] throws the
    not-started error; the host and the heap are as before, and the calls
    made, if any, are to the logger: no client method is invoked. *)
Theorem not_started_rejected env tool w :
  lspClient env = None ->
  requiresClient tool = true ->
  handlers env tool w = (Throw notStarted, after w (beforeCheck tool)) ∧
  Forall (fun c => isClientCall c = false) (beforeCheck tool).
Proof.
  intros Hnull Hreq. split.
  - destruct tool, w; try discriminate Hreq; run; rewrite Hnull; simpl;
      by rewrite ?app_nil_r.
  - destruct tool; simpl; repeat constructor.
Qed.

(** C2.  For [get_info_on_location], [get_completions] and
    [get_code_actions], with [passed] the supplied line and column
    numbers, each minus one in JavaScript's arithmetic on numbers and in
    the supplied order (for code actions all four of them):
    - on every run, each position or range that reaches a client method
      consists of [passed];
    - when a client exists, the file can be read and [openDocument]
      succeeds, the handler goes on to the request, and that request
      carries [passed];
    - when the supplied numbers are integers from 1 to 2^53, [passed] are
      the integers one less. *)
Theorem coordinates_minus_one env tool xs w :
  supplied tool = Some xs ->
  let passed := map (fun x => x - 1)%float xs in
  (exists calls,
     trace (handlers env tool w).2 = trace w ++ calls ∧
     Forall (passes passed) calls) ∧
  (forall r c fp lang content c1,
     lspClient env = Some r -> heap w !! r = Some c ->
     readsFile tool = Some fp -> languageOf tool = Some lang ->
     readFile fp = Ok content ->
     openDocument (createFileUri resolve fp) content lang c = (Ok tt, c1) ->
     exists m calls,
       coordinates m = Some passed ∧
       trace (handlers env tool w).2 =
         trace w ++
         [Log Debug; ReadFile fp;
          ClientCall r (MOpenDocument (createFileUri resolve fp) content lang);
          ClientCall r m] ++ calls) ∧
  (forall ns,
     xs = map number ns -> Forall (fun n => 1 <= n <= 2 ^ 53)%Z ns ->
     passed = map (fun n => number (n - 1)) ns ∧
     map integerValue passed = map (fun n => Some (n - 1)%Z) ns).
Proof.
  intros Hsup passed. split; [|split].
  - destruct tool; try discriminate Hsup; injection Hsup as <-; run;
      (destruct (lspClient env) as [r|]; simpl;
       [|eexists; split; [done|]; by repeat constructor]);
      destruct (readFile file_path) as [fileContent|e]; simpl;
      try (eexists; split; [by rewrite <- !app_assoc|];
           by repeat constructor);
      (destruct (heap w !! r) as [c|] eqn:Hc; simpl;
       [|eexists; split; [by rewrite <- !app_assoc|];
         by repeat constructor]);
      destruct (openDocument _ _ _ c) as [[[]|e] c1]; simpl;
      try (eexists; split; [by rewrite <- !app_assoc|];
           by repeat constructor);
      rewrite list_lookup_insert_eq by (by eapply lookup_lt_Some); simpl.
    + destruct (getInfoOnLocation _ _ c1) as [[text|e] c2]; simpl;
        (eexists; split; [by rewrite <- !app_assoc|]);
        by repeat constructor.
    + destruct (getCompletion _ _ c1) as [[items|e] c2]; simpl;
        (eexists; split; [by rewrite <- !app_assoc|]);
        by repeat constructor.
    + destruct (getCodeActions _ _ c1) as [[items|e] c2]; simpl;
        (eexists; split; [by rewrite <- !app_assoc|]);
        by repeat constructor.
  - intros r c fp lang content c1 Hr Hc Hfp Hlang Hread Hopen.
    destruct tool; try discriminate Hsup; injection Hsup as <-;
      injection Hfp as ->; injection Hlang as ->; run;
      rewrite Hr; simpl; rewrite Hread; simpl; rewrite Hc; simpl;
      rewrite Hopen; simpl;
      rewrite list_lookup_insert_eq by (by eapply lookup_lt_Some); simpl.
    + destruct (getInfoOnLocation _ _ c1) as [[text|e] c2]; simpl;
        eexists _, _; (split; [|by rewrite <- !app_assoc]); done.
    + destruct (getCompletion _ _ c1) as [[items|e] c2]; simpl;
        eexists _, _; (split; [|by rewrite <- !app_assoc]); done.
    + destruct (getCodeActions _ _ c1) as [[items|e] c2]; simpl;
        eexists _, _; (split; [|by rewrite <- !app_assoc]); done.
  - intros ns -> Hns. unfold passed. clear -Hns.
    induction Hns as [|n ns Hn _ [IH1 IH2]]; [done|]. simpl.
    rewrite IH1 in *. rewrite IH2.
    rewrite NumberFacts.number_minus_one by done.
    rewrite NumberFacts.number_exact by lia. done.
Qed.

Lemma obj_set_fresh {V} (key : string) (value : V) obj :
  key ∉ obj.*1 -> obj_set key value obj = obj ++ [(key, value)].
Proof.
  induction obj as [|[k v] obj IH]; simpl; [done|].
  intros [Hk Hobj]%not_elem_of_cons.
  destruct (String.eqb k key) eqn:Heq.
  - apply String.eqb_eq in Heq. congruence.
  - by rewrite IH.
Qed.

(** The loop of [get_diagnostics] over a map with pairwise distinct keys:
    one [isDocumentOpen] per entry, and the entries of the open uris are
    appended to the record in the order of the map. *)
Lemma forEach_open_entries r c (entries : list (string * list Any)) acc w :
  heap w !! r = Some c ->
  NoDup entries.*1 ->
  (forall key, key ∈ entries.*1 -> key ∉ acc.*1) ->
  forEach entries
    (fun (value : list Any) (key : string)
         (diagnosticsObject : list (string * list Any)) =>
       isOpen ← query (Some r) "isDocumentOpen"
                  (MIsDocumentOpen key) (isDocumentOpen key);
       ret (if isOpen : bool then obj_set key value diagnosticsObject
            else diagnosticsObject))
    acc w =
  (Ok (acc ++ List.filter (fun e => isDocumentOpen e.1 c) entries),
   after w (map (fun e => ClientCall r (MIsDocumentOpen e.1)) entries)).
Proof.
  revert acc w.
  induction entries as [|[key value] entries IH]; intros acc w Hc Hnodup Hfresh.
  - simpl. unfold ret. rewrite !app_nil_r. by destruct w.
  - apply NoDup_cons in Hnodup as [Hkey Hnodup].
    cbn [forEach]. unfold mbind at 1, M_bind at 1, bind at 1.
    unfold query, invoke, mbind, M_bind, bind, ret, emit. rewrite Hc.
    cbn [heap host logLevel trace].
    rewrite list_insert_id by done.
    rewrite IH; cbn [heap host logLevel trace]; [|done..|].
    + cbn [List.filter fst map]. rewrite <- !app_assoc.
      destruct (isDocumentOpen key c); [|done].
      rewrite obj_set_fresh, <- app_assoc; [done|].
      apply Hfresh. simpl. left.
    + intros k Hk. assert (k ≠ key) by (intros ->; done).
      assert (k ∉ acc.*1) by (apply Hfresh; simpl; by right).
      destruct (isDocumentOpen key c); [|done].
      rewrite obj_set_fresh by (apply Hfresh; simpl; left).
      rewrite fmap_app, elem_of_app. cbn [fmap list_fmap fst].
      rewrite list_elem_of_singleton. tauto.
Qed.

(** C3.  With a client at hand, [get_diagnostics] without a [file_path]
    returns the record made of exactly those entries of
    [getAllDiagnostics()] whose uri [isDocumentOpen] accepts, each with its
    sequence of diagnostics as cached and in the order of the map; the
    entries of the other uris are left out.  The host and the client are
    left as they were. *)
Theorem diagnostics_of_open_documents env w r c :
  lspClient env = Some r ->
  heap w !! r = Some c ->
  NoDup (getAllDiagnostics c).*1 ->
  handlers env (get_diagnostics None) w =
    (Ok (textResult (stringify (PRecord
       (List.filter (fun e => isDocumentOpen e.1 c) (getAllDiagnostics c))))),
     after w ([Log Debug; ClientCall r MGetAllDiagnostics] ++
              map (fun e => ClientCall r (MIsDocumentOpen e.1))
                (getAllDiagnostics c))).
Proof.
  intros Hr Hc Hnodup.
  unfold getToolHandlers, get_diagnostics_handler. rewrite Hr.
  unfold checkLspClientInitialized, try_catch.
  cbn [truthy]. unfold debug, call.
  unfold mbind at 1 2 3, M_bind at 1 2 3, bind at 1 2 3, ret at 1.
  unfold query at 1, invoke, emit. cbn [heap host logLevel trace].
  rewrite Hc. cbn [heap host logLevel trace].
  rewrite list_insert_id by done.
  unfold mbind at 1, M_bind at 1, bind at 1.
  rewrite (forEach_open_entries r c); cbn [heap host logLevel trace];
    [|done..|set_solver].
  unfold ret. by rewrite <- !app_assoc.
Qed.

Lemma truthy_nonempty (s : string) :
  s ≠ EmptyString -> String.eqb s EmptyString = false.
Proof. intros Hs. by apply String.eqb_neq. Qed.

(** An empty [file_path] is falsy: the call is the one without
    [file_path]. *)
Lemma get_diagnostics_empty_path env :
  handlers env (get_diagnostics (Some EmptyString)) =
  handlers env (get_diagnostics None).
Proof. reflexivity. Qed.

(** C4, as amended.  With a client at hand and a non-empty [file_path],
    whose uri is [createFileUri file_path]: when that uri is not open the
    call throws the error that the file is not open, and when it is open
    the call returns the record that maps the uri to
    [getDiagnostics(uri)].  Either way the host and the client, with its
    diagnostics cache and its document store, are as before: the calls
    made are lookups and logging. *)
Theorem diagnostics_of_file env file_path w r c :
  lspClient env = Some r ->
  heap w !! r = Some c ->
  file_path ≠ EmptyString ->
  let fileUri := createFileUri resolve file_path in
  handlers env (get_diagnostics (Some file_path)) w =
    if isDocumentOpen fileUri c
    then (Ok (textResult (stringify
                (PRecord [(fileUri, getDiagnostics fileUri c)]))),
          after w [Log Debug; ClientCall r (MIsDocumentOpen fileUri);
                   ClientCall r (MGetDiagnostics fileUri)])
    else (Throw (notOpen file_path),
          after w [Log Debug; ClientCall r (MIsDocumentOpen fileUri);
                   Log Error]).
Proof.
  intros Hr Hc Hpath fileUri. run.
  rewrite Hr, (truthy_nonempty _ Hpath). simpl. rewrite Hc. simpl.
  rewrite list_insert_id by done. subst fileUri.
  destruct (isDocumentOpen _ c); simpl.
  - rewrite Hc. simpl. rewrite list_insert_id by done.
    by rewrite <- !app_assoc.
  - by rewrite <- !app_assoc.
Qed.

(** C5, as amended.  The stored root directory is the [rootDir] the
    handlers were created with (the source calls it the stored one), and
    it is updated by calling [setRootDir].  With a client at hand: without
    [root_dir], [restart_lsp_server] calls [restart] with the stored root
    directory and does not call [setRootDir], so that the host is as
    before; with a non-empty [root_dir], it calls [setRootDir(root_dir)]
    and after that [restart(root_dir)]. *)
Theorem restart_root_dir env w r c dir :
  lspClient env = Some r ->
  heap w !! r = Some c ->
  dir ≠ EmptyString ->
  handlers env (restart_lsp_server None) w =
    (restartOutcome (restart (rootDir env) c).1
       "LSP server successfully restarted",
     {| host := host w;
        heap := <[r := (restart (rootDir env) c).2]> (heap w);
        logLevel := logLevel w;
        trace := trace w ++
          [Log Info; ClientCall r (MRestart (rootDir env))] ++
          errorLog (restart (rootDir env) c).1 |}) ∧
  handlers env (restart_lsp_server (Some dir)) w =
    (restartOutcome (restart dir c).1
       ("LSP server successfully restarted and initialized with root directory: "
        +:+ dir),
     {| host := setRootDir dir (host w);
        heap := <[r := (restart dir c).2]> (heap w);
        logLevel := logLevel w;
        trace := trace w ++
          [Log Info; SetRootDir dir; ClientCall r (MRestart dir)] ++
          errorLog (restart dir c).1 |}).
Proof.
  intros Hr Hc Hdir. split; run; rewrite Hr; simpl.
  - rewrite Hc. destruct (restart (rootDir env) c) as [[[]|e] c']; simpl;
      by rewrite <- !app_assoc.
  - rewrite (truthy_nonempty _ Hdir). simpl. rewrite Hc.
    destruct (restart dir c) as [[[]|e] c']; simpl;
      by rewrite <- !app_assoc.
Qed.

(** An empty [root_dir] is falsy: the call is the one without
    [root_dir]. *)
Lemma restart_empty_root_dir env :
  handlers env (restart_lsp_server (Some EmptyString)) =
  handlers env (restart_lsp_server None).
Proof. reflexivity. Qed.

(** When no client exists, [start_lsp] creates one and hands it to
    [setLspClient], and then calls [initialize] on its own [lspClient],
    which is still [null]. *)
Lemma start_lsp_without_client env root_dir w c :
  lspClient env = None ->
  newLSPClient (lspServerPath env) (lspServerArgs env) = Ok c ->
  let startRootDir := or_else root_dir (rootDir env) in
  let newClient := length (heap w) in
  handlers env (start_lsp root_dir) w =
    (Throw (JsError ("Failed to start LSP server: " +:+
                     errorMessage (nullDeref "initialize"))),
     {| host := setLspClient newClient (setRootDir startRootDir (host w));
        heap := heap w ++ [c];
        logLevel := logLevel w;
        trace := trace w ++
          [Log Info; SetRootDir startRootDir;
           NewLSPClient newClient (lspServerPath env) (lspServerArgs env);
           SetLspClient newClient; Log Error] |}).
Proof.
  intros Hr Hnew startRootDir newClient. run. rewrite Hr, Hnew. simpl.
  by rewrite <- !app_assoc.
Qed.

(** With a client at hand, [start_lsp] initializes it. *)
Lemma start_lsp_with_client env root_dir w r c :
  lspClient env = Some r ->
  heap w !! r = Some c ->
  let startRootDir := or_else root_dir (rootDir env) in
  exists calls,
    trace (handlers env (start_lsp root_dir) w).2 =
      trace w ++ [Log Info; SetRootDir startRootDir;
                  ClientCall r (MInitialize startRootDir)] ++ calls.
Proof.
  intros Hr Hc startRootDir. run. rewrite Hr. simpl. rewrite Hc.
  destruct (initialize _ c) as [[[]|e] c']; simpl; eexists;
    by rewrite <- !app_assoc.
Qed.

(** The text [get_info_on_location] returns is the string that
    [getInfoOnLocation] resolved to. *)
Lemma get_info_on_location_text env file_path language_id l k
    w r c fileContent c1 text c2 :
  lspClient env = Some r ->
  heap w !! r = Some c ->
  readFile file_path = Ok fileContent ->
  let fileUri := createFileUri resolve file_path in
  openDocument fileUri fileContent language_id c = (Ok tt, c1) ->
  getInfoOnLocation fileUri {| line := l - 1; character := k - 1 |} c1
    = (Ok text, c2) ->
  (handlers env (get_info_on_location file_path language_id l k) w).1
    = Ok (textResult text).
Proof.
  intros Hr Hc Hfile fileUri Hopen Hhover. run.
  rewrite Hr, Hfile. simpl. rewrite Hc. subst fileUri. rewrite Hopen. simpl.
  rewrite list_lookup_insert_eq by (by eapply lookup_lt_Some).
  by rewrite Hhover.
Qed.

End HandlerFacts.


(** ** The document store *)

Module DocumentStoreFacts.

Import DocumentStore.

Lemma isOpen_spec u s : isOpen u s = true <-> is_Some (documents s !! u).
Proof. unfold isOpen. by rewrite bool_decide_eq_true. Qed.

Lemma open_tracked u content lang s : isOpen u (open u content lang s) = true.
Proof.
  apply isOpen_spec. unfold open.
  destruct (documents s !! u) eqn:Hu; [by rewrite Hu|].
  simpl. by rewrite lookup_insert_eq.
Qed.

Lemma open_already_open u content lang s :
  isOpen u s = true -> open u content lang s = s.
Proof. intros [d Hd]%isOpen_spec. unfold open. by rewrite Hd. Qed.

Lemma open_transmitted u content lang s :
  transmitted (open u content lang s) =
    transmitted s ++
    (if isOpen u s then [] else [DidOpen u lang 1 content]).
Proof.
  unfold open, isOpen.
  destruct (documents s !! u) eqn:Hu; simpl; [|done].
  by rewrite app_nil_r.
Qed.

(** C6.  Two consecutive calls of [open] for the same uri: the second
    call is a no-op, leaving the store (the documents with their versions,
    the diagnostics and the notifications sent) as the first call left
    it; and over the two calls exactly one didOpen notification for the
    uri is transmitted when the uri was not open before, none when it
    already was. *)
Theorem open_idempotent u content lang content' lang' s :
  open u content' lang' (open u content lang s) = open u content lang s ∧
  transmitted (open u content' lang' (open u content lang s)) =
    transmitted s ++
    (if isOpen u s then [] else [DidOpen u lang 1 content]) ∧
  length (didOpens u
            (transmitted (open u content' lang' (open u content lang s)))) =
    (length (didOpens u (transmitted s)) + (if isOpen u s then 0 else 1))%nat.
Proof.
  rewrite (open_already_open u content' lang') by apply open_tracked.
  split; [done|]. split; [apply open_transmitted|].
  rewrite open_transmitted. unfold didOpens.
  rewrite List.filter_app, length_app.
  destruct (isOpen u s); simpl; [done|].
  by rewrite String.eqb_refl.
Qed.

(** Closing in between makes the second [open] send again. *)
Lemma open_close_open u content lang s :
  transmitted (open u content lang (close u (open u content lang s))) =
    transmitted (open u content lang s) ++
    [DidClose u; DidOpen u lang 1 content].
Proof.
  pose proof (open_tracked u content lang s) as [d Hd]%isOpen_spec.
  unfold close. rewrite Hd.
  unfold open at 1. simpl. rewrite lookup_delete_eq. simpl.
  by rewrite <- app_assoc.
Qed.

End DocumentStoreFacts.

(** ** Hover normalisation *)

Module HoverFacts.

Import Hover.

(** The normalised output for each shape of a hover result. *)
Lemma normalize_shapes separator :
  normalize separator None = EmptyString ∧
  normalize separator (Some {| contents := None |}) = EmptyString ∧
  (forall kind value,
     normalize separator
       (Some {| contents := Some (MarkupContent kind value) |}) = value) ∧
  (forall m,
     normalize separator (Some {| contents := Some (Marked m) |})
       = markedText m) ∧
  (forall ms,
     normalize separator (Some {| contents := Some (MarkedSequence ms) |})
       = join separator (map markedText ms)).
Proof. repeat split. Qed.

Lemma normalize_null_contents separator result :
  result = None ∨ (exists h, result = Some h ∧ contents h = None) ->
  normalize separator result = EmptyString.
Proof.
  intros [->|(h & -> & Hh)]; [done|].
  unfold normalize. by rewrite Hh.
Qed.

End HoverFacts.

(** ** The handlers over the client facade *)

Section FacadeFacts.

Context {H : Type}.

Variable srv : Reference.Server.
Variable setLspClient : ref -> H -> H.
Variable setRootDir : string -> H -> H.
Variable resolve : string -> string.
Variable readFile : string -> Result string.
Variable stringify : Payload Reference.Value -> string.

#[local] Notation "'handlers'" :=
  (getToolHandlers (ops := Reference.referenceClient srv)
     setLspClient setRootDir resolve readFile stringify).

Implicit Types (w : @World H Reference.Client) (env : Env).

(** C7, as amended.  With an initialized client and a readable file,
    [get_info_on_location] returns one text item: the hover result for
    the zero-based position, flattened to a string.  It is the empty
    string when that result is null and when its contents are null. *)
Theorem hover_text_flattened env file_path language_id l k w r c fileContent :
  lspClient env = Some r ->
  heap w !! r = Some c ->
  Reference.initialized c = true ->
  readFile file_path = Ok fileContent ->
  let response :=
    Reference.hoverAt (Reference.server c) (createFileUri resolve file_path)
      {| line := l - 1; character := k - 1 |} in
  let returned :=
    (handlers env (get_info_on_location file_path language_id l k) w).1 in
  returned = Ok (textResult (Hover.normalize Reference.separator response)) ∧
  (response = None ∨
   (exists h, response = Some h ∧ Hover.contents h = None) ->
   returned = Ok (textResult EmptyString)).
Proof.
  intros Hr Hc Hinit Hfile response returned.
  assert (returned =
          Ok (textResult (Hover.normalize Reference.separator response)))
    as Hret.
  { subst returned.
    eapply (get_info_on_location_text
             (ops := Reference.referenceClient srv));
      [done..| |].
    - simpl. unfold Reference.whenInitialized. by rewrite Hinit.
    - simpl. unfold Reference.whenInitialized. simpl. by rewrite Hinit. }
  split; [done|].
  intros Hnull. by rewrite Hret, (HoverFacts.normalize_null_contents _ _ Hnull).
Qed.

(** Opening the same file twice through [open_document] sends one didOpen
    notification: the second call finds the uri tracked. *)
Lemma open_document_twice env file_path language_id w r c fileContent :
  lspClient env = Some r ->
  heap w !! r = Some c ->
  Reference.initialized c = true ->
  readFile file_path = Ok fileContent ->
  let fileUri := createFileUri resolve file_path in
  DocumentStore.isOpen fileUri (Reference.store c) = false ->
  let w1 := (handlers env (open_document file_path language_id) w).2 in
  let w2 := (handlers env (open_document file_path language_id) w1).2 in
  heap w2 = heap w1 ∧
  exists c2,
    heap w2 !! r = Some c2 ∧
    DocumentStore.transmitted (Reference.store c2) =
      DocumentStore.transmitted (Reference.store c) ++
      [DocumentStore.DidOpen fileUri language_id 1 fileContent].
Proof.
  intros Hr Hc Hinit Hfile fileUri Hclosed w1 w2.
  pose proof (lookup_lt_Some _ _ _ Hc) as Hlt.
  assert (heap w1 =
          <[r := Reference.withStore c
                   (DocumentStore.open fileUri fileContent language_id
                      (Reference.store c))]> (heap w)) as Hw1.
  { subst w1. run. rewrite Hr, Hfile. simpl. rewrite Hc. simpl.
    unfold Reference.whenInitialized. by rewrite Hinit. }
  assert (heap w2 = heap w1) as Hw2.
  { subst w2. run. rewrite Hr, Hfile. simpl. rewrite Hw1.
    rewrite list_lookup_insert_eq by done. simpl.
    unfold Reference.whenInitialized. simpl. rewrite Hinit. simpl.
    rewrite list_insert_insert_eq. fold fileUri.
    by rewrite (DocumentStoreFacts.open_already_open fileUri fileContent
                  language_id (DocumentStore.open _ _ _ _))
      by apply DocumentStoreFacts.open_tracked. }
  split; [done|]. eexists. split.
  - rewrite Hw2, Hw1. by apply list_lookup_insert_eq.
  - simpl. rewrite DocumentStoreFacts.open_transmitted.
    fold fileUri. by rewrite Hclosed.
Qed.

End FacadeFacts.

(** ** The framer *)

Module FramerFacts.

Import Framer.

#[local] Open Scope list_scope.
#[local] Open Scope nat_scope.

Lemma startsWith_length p l :
  startsWith p l = true -> length p ≤ length l.
Proof.
  revert l. induction p as [|a p IH]; intros [|b l]; simpl; try lia; try done.
  intros [_ Hp]%andb_prop. apply IH in Hp. lia.
Qed.

Lemma startsWith_app p l y :
  length p ≤ length l -> startsWith p (l ++ y) = startsWith p l.
Proof.
  revert l. induction p as [|a p IH]; intros [|b l]; simpl; try lia; try done.
  intros Hlen. rewrite IH; [done | lia].
Qed.

Lemma startsWith_prefix p l : startsWith p (p ++ l) = true.
Proof.
  induction p as [|a p IH]; simpl; [done|].
  by rewrite Byte.byte_dec_lb.
Qed.

Lemma splitHeader_length buf header after :
  splitHeader buf = Some (header, after) ->
  length buf = length header + 4 + length after.
Proof.
  revert header after. induction buf as [|b rest IH]; intros header after.
  { done. }
  cbn [splitHeader].
  destruct (startsWith headerEnd (b :: rest)) eqn:Hs.
  - intros Heq. injection Heq as <- <-.
    apply startsWith_length in Hs. simpl in Hs.
    rewrite length_drop. simpl. lia.
  - destruct (splitHeader rest) as [[h a]|] eqn:Hrest; [|done].
    intros Heq. injection Heq as <- <-.
    specialize (IH _ _ eq_refl). simpl. lia.
Qed.

Lemma splitHeader_app buf y header after :
  splitHeader buf = Some (header, after) ->
  splitHeader (buf ++ y) = Some (header, after ++ y).
Proof.
  revert header after. induction buf as [|b rest IH]; intros header after.
  { done. }
  cbn [splitHeader app].
  destruct (startsWith headerEnd (b :: rest)) eqn:Hs.
  - intros Heq. injection Heq as <- <-.
    pose proof (startsWith_length _ _ Hs) as Hlen.
    change (b :: rest ++ y) with ((b :: rest) ++ y).
    rewrite startsWith_app, Hs by done.
    rewrite drop_app_le by done. done.
  - destruct (splitHeader rest) as [[h a]|] eqn:Hrest; [|done].
    intros Heq. injection Heq as <- <-.
    pose proof (splitHeader_length _ _ _ Hrest) as Hlen.
    change (b :: rest ++ y) with ((b :: rest) ++ y).
    rewrite startsWith_app, Hs by (simpl; lia).
    by rewrite (IH _ _ eq_refl).
Qed.

Lemma nextFrame_complete_app buf y body rest :
  nextFrame buf = Complete body rest ->
  nextFrame (buf ++ y) = Complete body (rest ++ y).
Proof.
  unfold nextFrame.
  destruct (splitHeader buf) as [[header after]|] eqn:Hsplit; [|done].
  rewrite (splitHeader_app _ y _ _ Hsplit).
  destruct (readLength header) as [n|]; [|done].
  case_decide as Hn; [|done].
  intros [= <- <-].
  rewrite decide_True by (rewrite length_app; lia).
  by rewrite take_app_le, drop_app_le by done.
Qed.

Lemma nextFrame_malformed_app buf y :
  nextFrame buf = Malformed -> nextFrame (buf ++ y) = Malformed.
Proof.
  unfold nextFrame.
  destruct (splitHeader buf) as [[header after]|] eqn:Hsplit; [|done].
  rewrite (splitHeader_app _ y _ _ Hsplit).
  destruct (readLength header) as [n|]; [|done].
  by case_decide.
Qed.

Lemma nextFrame_complete_length buf body rest :
  nextFrame buf = Complete body rest -> length rest < length buf.
Proof.
  unfold nextFrame.
  destruct (splitHeader buf) as [[header after]|] eqn:Hsplit; [|done].
  apply splitHeader_length in Hsplit.
  destruct (readLength header) as [n|]; [|done].
  case_decide; [|done].
  intros [= <- <-]. rewrite length_drop. lia.
Qed.

(** Any number of rounds from [length buf] on gives the same result. *)
Lemma drain_rounds n m buf :
  length buf ≤ n -> length buf ≤ m -> drain n buf = drain m buf.
Proof.
  revert m buf. induction n as [|n IH]; intros m buf Hn Hm.
  - destruct buf; [|simpl in Hn; lia]. by destruct m.
  - destruct m as [|m].
    + destruct buf; [|simpl in Hm; lia]. done.
    + simpl. destruct (nextFrame buf) as [| |body rest] eqn:Hnext; try done.
      apply nextFrame_complete_length in Hnext.
      rewrite (IH m rest) by lia. done.
Qed.

(** With enough rounds the buffer that is left holds no complete frame. *)
Lemma drain_settled n buf events rest :
  length buf ≤ n ->
  drain n buf = (events, Buffering rest) ->
  nextFrame rest = NeedMore.
Proof.
  revert buf events. induction n as [|n IH]; intros buf events Hn.
  - destruct buf; [|simpl in Hn; lia]. by intros [= <- <-].
  - simpl. destruct (nextFrame buf) as [| |body rest'] eqn:Hnext.
    + by intros [= <- <-].
    + done.
    + apply nextFrame_complete_length in Hnext.
      destruct (drain n rest') as [es st] eqn:Hd.
      intros [= <- ->]. eapply IH; [|done]. lia.
Qed.

Lemma feed_settled st chunk : settled (feed st chunk).2.
Proof.
  destruct st as [buffer|]; simpl; [|done].
  destruct (drain _ _) as [events [rest|]] eqn:Hd; simpl; [|done].
  by eapply drain_settled.
Qed.

Lemma feed_nil st : settled st -> feed st [] = ([], st).
Proof.
  destruct st as [buffer|]; simpl; [|done].
  intros Hs. rewrite app_nil_r. destruct buffer; [done|].
  simpl. by rewrite Hs.
Qed.

(** Draining a buffer to which more bytes have been appended is draining
    the buffer first and feeding the further bytes to what is left. *)
Lemma drain_app n x y :
  length x ≤ n ->
  drain (length (x ++ y)) (x ++ y) =
    let '(events, st) := drain n x in
    let '(events', st') := feed st y in
    (events ++ events', st').
Proof.
  revert x. induction n as [|n IH]; intros x Hn.
  - destruct x; [|simpl in Hn; lia]. simpl.
    by destruct (drain (length y) y).
  - cbn [drain].
    destruct (nextFrame x) as [| |body rest] eqn:Hnext.
    + simpl. by destruct (drain _ _).
    + apply (nextFrame_malformed_app _ y) in Hnext.
      destruct (length (x ++ y)) as [|k] eqn:Hk.
      { apply nil_length_inv in Hk. by rewrite Hk in Hnext. }
      cbn [drain]. by rewrite Hnext.
    + pose proof (nextFrame_complete_length _ _ _ Hnext) as Hlen.
      apply (nextFrame_complete_app _ y) in Hnext.
      destruct (length (x ++ y)) as [|k] eqn:Hk.
      { rewrite length_app in Hk. lia. }
      cbn [drain]. rewrite Hnext.
      rewrite (drain_rounds k (length (rest ++ y))).
      * rewrite (IH rest) by lia.
        destruct (drain n rest) as [es st].
        by destruct (feed st y).
      * rewrite length_app in *. lia.
      * done.
Qed.

Lemma feed_app st x y :
  feed st (x ++ y) =
    let '(events, st') := feed st x in
    let '(events', st'') := feed st' y in
    (events ++ events', st'').
Proof.
  destruct st as [buffer|]; simpl; [|done].
  rewrite app_assoc. by apply drain_app.
Qed.

Lemma feedAll_concat st chunks :
  settled st -> feedAll st chunks = feed st (concat chunks).
Proof.
  revert st. induction chunks as [|chunk chunks IH]; intros st Hst.
  - simpl. by rewrite feed_nil.
  - simpl. rewrite feed_app.
    pose proof (feed_settled st chunk) as Hs.
    destruct (feed st chunk) as [events st']. simpl in Hs.
    by rewrite IH.
Qed.

Lemma feedAll_start chunks : feedAll start chunks = feed start (concat chunks).
Proof. by apply feedAll_concat. Qed.

(** *** Valid frames decode to their bodies *)

Lemma readDigits_digits d : readDigits (digits d) = Some d.
Proof. induction d; simpl; [done|by rewrite IHd..]. Qed.

Lemma digits_no_cr d : Forall (fun b => b ≠ x0d) (digits d).
Proof. induction d; simpl; [done|by constructor..]. Qed.

Lemma to_uint_not_nil n : Nat.to_uint n ≠ Decimal.Nil.
Proof.
  pose proof (Unsigned.to_of (Nat.to_uint n)) as Hn.
  rewrite Unsigned.of_to in Hn. rewrite Hn.
  unfold Decimal.unorm. by destruct (Decimal.nzhead _).
Qed.

Lemma splitHeader_header header tail :
  Forall (fun b => b ≠ x0d) header ->
  splitHeader (header ++ headerEnd ++ tail) = Some (header, tail).
Proof.
  induction 1 as [|b header Hb _ IH]; [done|].
  cbn [app splitHeader]. rewrite IH.
  replace (startsWith headerEnd (b :: header ++ headerEnd ++ tail))
    with false; [done|].
  cbn [headerEnd startsWith].
  destruct (Byte.eqb x0d b) eqn:Hcr; [|done].
  apply Byte.byte_dec_bl in Hcr. congruence.
Qed.

Lemma readLength_header n :
  readLength (lengthField ++ digits (Nat.to_uint n)) = Some n.
Proof.
  unfold readLength. rewrite startsWith_prefix, drop_app_length.
  rewrite readDigits_digits.
  pose proof (to_uint_not_nil n) as Hnil.
  destruct (Nat.to_uint n) eqn:Hd; [done|..];
    by rewrite <- Hd, Unsigned.of_to.
Qed.

Lemma nextFrame_encode body rest :
  nextFrame (encode body ++ rest) = Complete body rest.
Proof.
  unfold nextFrame, encode.
  rewrite <- !app_assoc, (app_assoc lengthField).
  rewrite splitHeader_header.
  - rewrite readLength_header, decide_True by (rewrite length_app; lia).
    by rewrite take_app_length, drop_app_length.
  - apply Forall_app. split; [|apply digits_no_cr].
    by repeat constructor.
Qed.

Lemma drain_encode bodies n :
  length (concat (map encode bodies)) ≤ n ->
  drain n (concat (map encode bodies)) = (map Message bodies, Buffering []).
Proof.
  revert n. induction bodies as [|body bodies IH]; intros n Hn.
  - by destruct n.
  - cbn [map concat] in *.
    assert (0 < length (encode body)) as Hpos.
    { unfold encode. rewrite length_app. simpl. lia. }
    rewrite length_app in Hn.
    destruct n as [|n]; [lia|].
    cbn [drain]. rewrite nextFrame_encode, IH by lia. done.
Qed.

Lemma feed_encode bodies :
  feed start (concat (map encode bodies)) = (map Message bodies, Buffering []).
Proof. by apply drain_encode. Qed.

(** C8.  For every valid framed byte sequence (the frames of the bodies
    [bodies], one after the other) and every way [chunks] of cutting it
    into consecutive slices, feeding the slices one at a time to a fresh
    framer produces the same messages, and leaves the same state, as feeding
    the whole sequence in a single chunk: the bodies, in order. *)
Theorem framer_chunking bodies chunks :
  concat chunks = concat (map encode bodies) ->
  feedAll start chunks = feed start (concat (map encode bodies)) ∧
  feedAll start chunks = (map Message bodies, Buffering []).
Proof.
  intros Hcut. rewrite feedAll_start, Hcut. split; [done|].
  apply feed_encode.
Qed.

(** Two frames cut inside the first header, inside the first body and
    inside the second header. *)
Lemma framer_chunking_witness :
  let hi := String.list_byte_of_string "{}" in
  let frames := encode hi ++ encode hi in
  feedAll start
    [take 9 frames; take 11 (drop 9 frames); take 6 (drop 20 frames);
     drop 26 frames]
    = feed start (concat (map encode [hi; hi])) ∧
  feedAll start
    [take 9 frames; take 11 (drop 9 frames); take 6 (drop 20 frames);
     drop 26 frames]
    = (map Message [hi; hi], Buffering []).
Proof.
  intros hi frames.
  apply (framer_chunking [hi; hi]).
  vm_compute. reflexivity.
Defined.

End FramerFacts.

(** ** The handlers of the reference host *)

Lemma set_log_level_without_client :
  (Reference.handlers None (set_log_level Debug) Reference.freshWorld).1 =
    Ok (textResult "Log level set to: debug").
Proof. reflexivity. Qed.

(** C1, as first stated, fails: the check is on the existence of a client
    object, not on its handshake.  [coldWorld] holds a client that has
    been constructed and not initialized, which is what a failed
    [start_lsp] leaves behind; [close_document] passes the check there
    and calls the client, and the error is the client's own. *)
Lemma not_started_rejected_counterexample :
  let failed :=
    (Reference.handlers None (start_lsp (Some "/project"))
       Reference.freshWorld).2 in
  let run :=
    Reference.handlers (Some 0%nat) (close_document "/project/a.hs")
      coldWorld in
  host failed = host coldWorld ∧ heap failed = heap coldWorld ∧
  Reference.initialized <$> heap coldWorld !! 0%nat = Some false ∧
  run.1 = Throw (JsError "Failed to close document: NotInitialized") ∧
  run.1 ≠ Throw notStarted ∧
  trace run.2 =
    [Log Debug; ClientCall 0 (MCloseDocument "file:///project/a.hs");
     Log Error].
Proof. repeat split; try (vm_compute; reflexivity). discriminate. Qed.

Lemma not_started_rejected_witness :
  Reference.handlers None (get_diagnostics (Some "/project/a.hs"))
    Reference.freshWorld
    = (Throw notStarted, Reference.freshWorld) ∧
  Forall (fun c => isClientCall c = false) [].
Proof.
  apply (not_started_rejected Reference.setLspClient Reference.setRootDir
           Reference.resolve Reference.readFile Reference.stringify
           (Reference.demoEnv None) (get_diagnostics (Some "/project/a.hs"))
           Reference.freshWorld); reflexivity.
Defined.

(** C2, as first stated, fails: the subtraction is that of JavaScript
    numbers.  For line 2^53 + 2, itself a number, the client is sent line
    2^53 and not 2^53 + 1. *)
Lemma coordinates_minus_one_counterexample :
  integerValue 9007199254740994 = Some 9007199254740994%Z ∧
  trace (Reference.handlers (Some 0%nat)
           (get_info_on_location "/project/a.hs" "haskell"
              9007199254740994 1)
           Reference.demoWorld).2 =
    [Log Debug; ReadFile "/project/a.hs";
     ClientCall 0 (MOpenDocument "file:///project/a.hs"
                     "main = print 1" "haskell");
     ClientCall 0 (MGetInfoOnLocation "file:///project/a.hs"
                     {| line := 9007199254740992; character := 0 |});
     Log Debug] ∧
  integerValue 9007199254740992 = Some 9007199254740992%Z ∧
  (9007199254740992 ≠ 9007199254740994 - 1)%Z.
Proof. repeat split; try (vm_compute; reflexivity). lia. Qed.

Lemma coordinates_minus_one_witness :
  let run :=
    Reference.handlers (Some 0%nat)
      (get_code_actions "/project/a.hs" "haskell" 3 5 4 1)
      Reference.demoWorld in
  let passed := map (fun x => x - 1)%float [3; 5; 4; 1]%float in
  (exists calls, trace run.2 = [] ++ calls ∧ Forall (passes passed) calls) ∧
  (exists m calls,
     coordinates m = Some passed ∧
     trace run.2 =
       [] ++
       [Log Debug; ReadFile "/project/a.hs";
        ClientCall 0
          (MOpenDocument (createFileUri Reference.resolve "/project/a.hs")
             "main = print 1" "haskell");
        ClientCall 0 m] ++ calls) ∧
  passed = map (fun n => number (n - 1)) [3; 5; 4; 1]%Z ∧
  map integerValue passed = map (fun n => Some (n - 1)%Z) [3; 5; 4; 1]%Z.
Proof.
  destruct (coordinates_minus_one Reference.setLspClient
              Reference.setRootDir Reference.resolve Reference.readFile
              Reference.stringify (Reference.demoEnv (Some 0%nat))
              (get_code_actions "/project/a.hs" "haskell" 3 5 4 1)
              [3; 5; 4; 1]%float Reference.demoWorld)
    as (Hsafe & Hlive & Hexact); [reflexivity|].
  split; [exact Hsafe|]. split.
  - apply (Hlive 0%nat Reference.demoClient "/project/a.hs" "haskell"
             "main = print 1" Reference.demoClient); reflexivity.
  - apply Hexact; [vm_compute; reflexivity|].
    repeat constructor; simpl; lia.
Defined.

(** The request of that run does reach the client, with the coordinates
    zero-based. *)
Lemma get_code_actions_demo :
  Reference.handlers (Some 0%nat)
    (get_code_actions "/project/a.hs" "haskell" 3 5 4 1) Reference.demoWorld
  = (Ok (textResult "*"),
     {| host := host Reference.demoWorld;
        heap := heap Reference.demoWorld;
        logLevel := Info;
        trace :=
          [Log Debug; ReadFile "/project/a.hs";
           ClientCall 0 (MOpenDocument "file:///project/a.hs"
                           "main = print 1" "haskell");
           ClientCall 0 (MGetCodeActions "file:///project/a.hs"
             {| start := {| line := 2; character := 4 |};
                end_ := {| line := 3; character := 0 |} |});
           Log Debug] |}).
Proof. vm_compute. reflexivity. Qed.

Lemma diagnostics_of_open_documents_witness :
  Reference.handlers (Some 0%nat) (get_diagnostics None) Reference.demoWorld
  = (Ok (textResult (Reference.stringify (PRecord
       (List.filter
          (fun e => isDocumentOpen e.1 Reference.demoClient)
          (getAllDiagnostics Reference.demoClient))))),
     {| host := host Reference.demoWorld;
        heap := heap Reference.demoWorld;
        logLevel := logLevel Reference.demoWorld;
        trace := trace Reference.demoWorld ++
          ([Log Debug; ClientCall 0 MGetAllDiagnostics] ++
           map (fun e => ClientCall 0 (MIsDocumentOpen e.1))
             (getAllDiagnostics Reference.demoClient)) |}).
Proof.
  apply (diagnostics_of_open_documents Reference.setLspClient
           Reference.setRootDir Reference.resolve Reference.readFile
           Reference.stringify (Reference.demoEnv (Some 0%nat))
           Reference.demoWorld 0%nat Reference.demoClient).
  - reflexivity.
  - reflexivity.
  - apply NoDup_fst_map_to_list.
Defined.

(** In that run the cache holds entries for [a.hs], which is open, and
    for [b.hs], which is not; only the first is returned. *)
Lemma diagnostics_of_open_documents_demo :
  (getAllDiagnostics Reference.demoClient).*1
    ≡ₚ ["file:///project/a.hs"; "file:///project/b.hs"] ∧
  (Reference.handlers (Some 0%nat) (get_diagnostics None)
     Reference.demoWorld).1
    = Ok (textResult "file:///project/a.hs").
Proof.
  split; [|vm_compute; reflexivity].
  vm_compute. reflexivity.
Qed.

(** C4, as first stated, fails for the empty [file_path]: its uri, the
    working directory, is not open, and yet the call does not throw; it
    takes the branch of the call without [file_path] and returns the
    diagnostics of the open documents. *)
Lemma diagnostics_of_empty_path_counterexample :
  isDocumentOpen (createFileUri Reference.resolve EmptyString)
    Reference.demoClient = false ∧
  (Reference.handlers (Some 0%nat) (get_diagnostics (Some EmptyString))
     Reference.demoWorld).1
    = Ok (textResult "file:///project/a.hs").
Proof. split; vm_compute; reflexivity. Qed.

Lemma diagnostics_of_file_witness :
  Reference.handlers (Some 0%nat) (get_diagnostics (Some "/project/b.hs"))
    Reference.demoWorld
  = (Throw (notOpen "/project/b.hs"),
     {| host := host Reference.demoWorld;
        heap := heap Reference.demoWorld;
        logLevel := logLevel Reference.demoWorld;
        trace := trace Reference.demoWorld ++
          [Log Debug; ClientCall 0 (MIsDocumentOpen "file:///project/b.hs");
           Log Error] |}).
Proof.
  refine (diagnostics_of_file Reference.setLspClient Reference.setRootDir
            Reference.resolve Reference.readFile Reference.stringify
            (Reference.demoEnv (Some 0%nat)) "/project/b.hs"
            Reference.demoWorld 0%nat Reference.demoClient _ _ _);
    [reflexivity | reflexivity | discriminate].
Defined.

(** The same call for a file that is open. *)
Lemma diagnostics_of_open_file_demo :
  Reference.handlers (Some 0%nat) (get_diagnostics (Some "/project/a.hs"))
    Reference.demoWorld
  = (Ok (textResult (Reference.stringify
       (PRecord [("file:///project/a.hs",
                  [Reference.Diag Reference.demoDiagnostic])]))),
     {| host := host Reference.demoWorld;
        heap := heap Reference.demoWorld;
        logLevel := logLevel Reference.demoWorld;
        trace :=
          [Log Debug; ClientCall 0 (MIsDocumentOpen "file:///project/a.hs");
           ClientCall 0 (MGetDiagnostics "file:///project/a.hs")] |}).
Proof. vm_compute. reflexivity. Qed.

(** C5, as first stated, fails for the empty [root_dir]: it is supplied,
    and yet [setRootDir] is not called and the host keeps its root
    directory; the client restarts with the old one. *)
Lemma restart_empty_root_dir_counterexample :
  let w' := (Reference.handlers (Some 0%nat)
               (restart_lsp_server (Some EmptyString))
               Reference.demoWorld).2 in
  Reference.hostRootDir (host w') = "/project" ∧
  trace w' = [Log Info; ClientCall 0 (MRestart "/project")].
Proof. split; vm_compute; reflexivity. Qed.

Lemma restart_root_dir_witness :
  Reference.handlers (Some 0%nat) (restart_lsp_server None)
    Reference.demoWorld
  = (Ok (textResult "LSP server successfully restarted"),
     {| host := host Reference.demoWorld;
        heap := <[0%nat :=
                  (restart "/project" Reference.demoClient).2]>
                  (heap Reference.demoWorld);
        logLevel := Info;
        trace := [Log Info; ClientCall 0 (MRestart "/project")] |}) ∧
  Reference.handlers (Some 0%nat) (restart_lsp_server (Some "/other"))
    Reference.demoWorld
  = (Ok (textResult
       "LSP server successfully restarted and initialized with root directory: /other"),
     {| host := Reference.setRootDir "/other" (host Reference.demoWorld);
        heap := <[0%nat :=
                  (restart "/other" Reference.demoClient).2]>
                  (heap Reference.demoWorld);
        logLevel := Info;
        trace := [Log Info; SetRootDir "/other";
                  ClientCall 0 (MRestart "/other")] |}).
Proof.
  refine (restart_root_dir Reference.setLspClient Reference.setRootDir
            Reference.resolve Reference.readFile Reference.stringify
            (Reference.demoEnv (Some 0%nat)) Reference.demoWorld 0%nat
            Reference.demoClient "/other" _ _ _);
    [reflexivity | reflexivity | discriminate].
Defined.

(** C9 fails on the code.  The first [start_lsp], made while no client
    exists, creates a client, hands it to [setLspClient], and is then
    rejected with the TypeError of calling [initialize] on [null]: the
    handler's own [lspClient] is a parameter of [getToolHandlers], which
    [setLspClient] cannot assign.  No [initialize] reaches the new client,
    which would have accepted it. *)
Theorem start_lsp_first_call_fails :
  Reference.handlers None (start_lsp (Some "/project")) Reference.freshWorld
  = (Throw (JsError
       "Failed to start LSP server: Cannot read properties of null (reading 'initialize')"),
     {| host := {| Reference.hostClient := Some 0%nat;
                   Reference.hostRootDir := "/project" |};
        heap := [ {| Reference.initialized := false;
                     Reference.root := EmptyString;
                     Reference.store := DocumentStore.empty;
                     Reference.server := Reference.demoServer |} ];
        logLevel := Info;
        trace :=
          [Log Info; SetRootDir "/project";
           NewLSPClient 0 "/usr/bin/haskell-language-server-wrapper" ["lsp"];
           SetLspClient 0; Log Error] |}) ∧
  forall c, (initialize "/project" c).1 = Ok tt.
Proof. split; [vm_compute; reflexivity | done]. Qed.

(** C7, as first stated, fails: a hover result that is not null but has
    null contents comes back as the empty string as well. *)
Lemma hover_null_contents_counterexample :
  let response :=
    Reference.hoverAt Reference.silentServer "file:///project/a.hs"
      {| line := 0; character := 0 |} in
  response ≠ None ∧
  (Reference.handlers (Some 0%nat)
     (get_info_on_location "/project/a.hs" "haskell" 1 1)
     Reference.silentWorld).1
    = Ok (textResult EmptyString).
Proof. split; [discriminate | vm_compute; reflexivity]. Qed.

(** The scenario of a markdown hover at line 1, column 1 of
    [/project/a.hs]. *)
Lemma hover_text_flattened_witness :
  let returned :=
    (Reference.handlers (Some 0%nat)
       (get_info_on_location "/project/a.hs" "haskell" 1 1)
       Reference.demoWorld).1 in
  returned = Ok (textResult "main :: IO ()") ∧
  (Some {| Hover.contents :=
             Some (Hover.MarkupContent "markdown" "main :: IO ()") |} = None ∨
   (exists h,
      Some {| Hover.contents :=
                Some (Hover.MarkupContent "markdown" "main :: IO ()") |}
        = Some h ∧ Hover.contents h = None) ->
   returned = Ok (textResult EmptyString)).
Proof.
  refine (hover_text_flattened Reference.demoServer Reference.setLspClient
            Reference.setRootDir Reference.resolve Reference.readFile
            Reference.stringify (Reference.demoEnv (Some 0%nat))
            "/project/a.hs" "haskell" 1 1 Reference.demoWorld 0%nat
            Reference.demoClient "main = print 1" _ _ _ _);
    reflexivity.
Defined.

(** * Further properties of the tool handlers *)

Section HandlerCalls.

Context {H C Any : Type} {ops : LSPClientOps C Any}.

Variable setLspClient : ref -> H -> H.
Variable setRootDir : string -> H -> H.
Variable resolve : string -> string.
Variable readFile : string -> Result string.
Variable stringify : Payload Any -> string.

#[local] Notation "'handlers'" :=
  (getToolHandlers setLspClient setRootDir resolve readFile stringify).

Implicit Types (w : @World H C) (env : Env) (tool : ToolCall).

#[local] Notation "'after' w calls" :=
  {| host := host w; heap := heap w; logLevel := logLevel w;
     trace := trace w ++ calls |}
  (at level 10, w at level 9, calls at level 9).

#[local] Existing Instances M_ret M_bind.

(** A loop whose callback only makes calls that satisfy [P], and leaves the
    rest of the world alone, does so as a whole. *)
Lemma forEach_calls {V S} (P : Call -> Prop) (entries : list (string * V))
    (callback : V -> string -> S -> @M H C S) acc w :
  (forall v k s w0, exists calls,
      (callback v k s w0).2 = after w0 calls ∧ Forall P calls) ->
  exists calls,
    (forEach entries callback acc w).2 = after w calls ∧ Forall P calls.
Proof.
  intros Hcb. revert acc w.
  induction entries as [|[key value] entries IH]; intros acc w.
  - exists []. split; [|done]. simpl. rewrite app_nil_r. by destruct w.
  - cbn [forEach]. unfold mbind, M_bind, bind.
    destruct (Hcb value key acc w) as (calls1 & H1 & HP1).
    destruct (callback value key acc w) as [[s'|e] w1]; simpl in H1; subst w1.
    + destruct (IH s' (after w calls1)) as (calls2 & H2 & HP2).
      exists (calls1 ++ calls2). rewrite H2. simpl.
      split; [by rewrite app_assoc | by apply Forall_app].
    + by exists calls1.
Qed.

Ltac leaf :=
  rewrite <- ?app_assoc; simpl;
  first [ eexists; split; [reflexivity|]
        | exists []; split; [by rewrite app_nil_r|] ];
  split; [repeat match goal with
                 | |- Forall _ (_ :: _) => constructor
                 | |- Forall _ [] => constructor
                 end; simpl; first [done | by eauto 12]
         |by split].

(** Every call a handler makes is one its tool may make; the log level
    changes through [set_log_level] only, and the host through the tools
    that store a root directory. *)
Lemma handler_calls env tool w :
  exists calls,
    trace (handlers env tool w).2 = trace w ++ calls ∧
    Forall (mayCall resolve readFile env tool) calls ∧
    ((forall level, tool ≠ set_log_level level) ->
       logLevel (handlers env tool w).2 = logLevel w) ∧
    (storesRootDir tool = false -> host (handlers env tool w).2 = host w).
Proof.
  destruct tool;
    try (run; repeat case_match; simplify_eq/=; leaf).
  2:{ exists [SetLogLevel level]. split; [done|].
      split; [by repeat constructor|].
      split; [intros Hne; by destruct (Hne level) | done]. }
  unfold getToolHandlers, get_diagnostics_handler.
  destruct (truthy file_path) eqn:Htruthy.
  { run. repeat case_match; simplify_eq/=; leaf. }
  destruct (lspClient env) as [r|] eqn:Hr; [|run; leaf].
  run. destruct (heap w !! r) as [c|] eqn:Hc; simpl; [|leaf].
  rewrite list_insert_id by done.
  match goal with
  | |- context [forEach ?entries ?callback ?acc ?w0] =>
      destruct (forEach_calls
                  (mayCall resolve readFile env (get_diagnostics file_path))
                  entries callback acc w0) as (calls & Hcalls & Hmay);
        [|destruct (forEach entries callback acc w0) as [[obj|e] w1];
          simpl in Hcalls; subst w1; simpl]
  end.
  - intros value key obj w0. simpl.
    destruct (heap w0 !! r) as [c0|] eqn:Hc0; simpl.
    + exists [ClientCall r (MIsDocumentOpen key)].
      rewrite list_insert_id by done. split; [done|].
      constructor; [|done]. split; [done|].
      exists file_path. split; [done|]. congruence.
    + exists []. rewrite app_nil_r. by destruct w0.
  - exists ([Log Debug; ClientCall r MGetAllDiagnostics] ++ calls).
    split; [by rewrite <- !app_assoc|]. split; [|done].
    simpl. constructor; [done|]. constructor; [|done].
    split; [done|]. by exists file_path.
  - exists ([Log Debug; ClientCall r MGetAllDiagnostics] ++ calls ++
            [Log Error]).
    split; [by rewrite <- !app_assoc|]. split; [|done].
    simpl. constructor; [done|]. constructor.
    + split; [done|]. by exists file_path.
    + apply Forall_app. split; [done|]. by constructor.
Qed.

(** X1.  No tool other than [set_log_level] changes the log level or
    calls [setLogLevel]. *)
Theorem log_level_kept env tool w :
  (forall level, tool ≠ set_log_level level) ->
  logLevel (handlers env tool w).2 = logLevel w ∧
  exists calls,
    trace (handlers env tool w).2 = trace w ++ calls ∧
    Forall (fun c => forall level, c ≠ SetLogLevel level) calls.
Proof.
  intros Hother.
  destruct (handler_calls env tool w) as (calls & Htrace & Hmay & Hlevel & _).
  split; [by apply Hlevel|]. exists calls. split; [done|].
  eapply Forall_impl; [exact Hmay|].
  intros c Hc level ->. simpl in Hc. by apply (Hother level).
Qed.

(** X2.  The host's variables change only through [start_lsp] and through
    [restart_lsp_server] with a truthy [root_dir]: every other call leaves
    the host as it was and calls neither [setRootDir] nor
    [setLspClient]. *)
Theorem host_kept env tool w :
  storesRootDir tool = false ->
  host (handlers env tool w).2 = host w ∧
  exists calls,
    trace (handlers env tool w).2 = trace w ++ calls ∧
    Forall (fun c => isHostCall c = false) calls.
Proof.
  intros Hstores.
  destruct (handler_calls env tool w) as (calls & Htrace & Hmay & _ & Hhost).
  split; [by apply Hhost|]. exists calls. split; [done|].
  eapply Forall_impl; [exact Hmay|].
  intros [] Hc; simpl in *; try done.
  - destruct Hc as [(root_dir & -> & _)|(root_dir & -> & Ht & _)];
      simpl in Hstores; congruence.
  - by destruct Hc as [(root_dir & ->) _].
Qed.

(** X3.  The only file a handler reads is the [file_path] of
    [get_info_on_location], [get_completions], [get_code_actions] or
    [open_document]; the other five tools read no file. *)
Theorem reads_only_file_path env tool w :
  exists calls,
    trace (handlers env tool w).2 = trace w ++ calls ∧
    forall path, ReadFile path ∈ calls -> readsFile tool = Some path.
Proof.
  destruct (handler_calls env tool w) as (calls & Htrace & Hmay & _).
  exists calls. split; [done|]. intros path Hin.
  rewrite Forall_forall in Hmay. exact (Hmay _ Hin).
Qed.

(** X4.  Every client method a handler invokes is invoked on the
    [lspClient] the handlers were created with.  In particular handlers
    created with [null] invoke no client method, whatever the tool and
    whatever has been passed to [setLspClient] since. *)
Theorem calls_own_client env tool w :
  exists calls,
    trace (handlers env tool w).2 = trace w ++ calls ∧
    forall r m, ClientCall r m ∈ calls -> lspClient env = Some r.
Proof.
  destruct (handler_calls env tool w) as (calls & Htrace & Hmay & _).
  exists calls. split; [done|]. intros r m Hin.
  rewrite Forall_forall in Hmay. by destruct (Hmay _ Hin).
Qed.

(** X5.  A tool called with a [file_path] (for [get_diagnostics], a truthy
    one) gives the client one uri only: [createFileUri(file_path)]. *)
Theorem uri_of_file_path env tool file_path w :
  filePathOf tool = Some file_path ->
  exists calls,
    trace (handlers env tool w).2 = trace w ++ calls ∧
    forall r m u, ClientCall r m ∈ calls -> uriOf m = Some u ->
                  u = createFileUri resolve file_path.
Proof.
  intros Hpath.
  destruct (handler_calls env tool w) as (calls & Htrace & Hmay & _).
  exists calls. split; [done|]. intros r m u Hin Hu.
  rewrite Forall_forall in Hmay. destruct (Hmay _ Hin) as [_ Hm].
  destruct m; simpl in Hm, Hu; simplify_eq.
  - destruct Hm as (fp & Hfp & -> & _). destruct tool; by simplify_eq/=.
  - destruct Hm as (fp & -> & ->). by simplify_eq/=.
  - destruct Hm as (fp & lang & l & k & -> & ->).
    by simplify_eq/=.
  - destruct Hm as (fp & lang & l & k & -> & ->).
    by simplify_eq/=.
  - destruct Hm as (fp & lang & sl & sc & el & ec & -> & ->).
    by simplify_eq/=.
  - destruct Hm as (fp & -> & Hm). simpl in *.
    destruct (truthy fp) eqn:Ht; simplify_eq/=. by apply Hm.
  - destruct Hm as (fp & -> & Ht & ->). simpl in *.
    rewrite Ht in Hpath. by simplify_eq/=.
Qed.

(** X6.  Whenever a handler calls [openDocument], the text it hands over
    is what [fs.readFile] returned for the tool's [file_path], and the
    language is the tool's [language_id]. *)
Theorem opens_with_file_content env tool w :
  exists calls,
    trace (handlers env tool w).2 = trace w ++ calls ∧
    forall r u content lang,
      ClientCall r (MOpenDocument u content lang) ∈ calls ->
      exists file_path,
        readsFile tool = Some file_path ∧
        readFile file_path = Ok content ∧
        languageOf tool = Some lang.
Proof.
  destruct (handler_calls env tool w) as (calls & Htrace & Hmay & _).
  exists calls. split; [done|]. intros r u content lang Hin.
  rewrite Forall_forall in Hmay.
  destruct (Hmay _ Hin) as [_ (fp & Hfp & _ & Hfile & Hlang)]. eauto.
Qed.

(** X7.  A file that cannot be read never reaches the client.  When
    [fs.readFile] throws for the tool's [file_path], the handler throws
    without having called a client method and without having changed a
    client; the three location tools throw the error of [readFile] itself,
    [open_document] throws it wrapped by its [catch] block. *)
Theorem unreadable_file_rejected env tool file_path e r w :
  readsFile tool = Some file_path ->
  readFile file_path = Throw e ->
  lspClient env = Some r ->
  (handlers env tool w).1 = Throw (rethrown tool e) ∧
  heap (handlers env tool w).2 = heap w ∧
  exists calls,
    trace (handlers env tool w).2 = trace w ++ calls ∧
    Forall (fun c => isClientCall c = false) calls.
Proof.
  intros Hreads Hfile Hr.
  destruct tool; simplify_eq/=; run; rewrite Hr, Hfile; simpl;
    (split; [done|]; split; [done|]);
    eexists; (split; [by rewrite <- !app_assoc|]); by repeat constructor.
Qed.

(** The loop of [get_diagnostics] over the entries of a map returns. *)
Lemma forEach_returns r c (entries : list (string * list Any)) acc w :
  heap w !! r = Some c ->
  exists obj w',
    forEach entries
      (fun (value : list Any) (key : string)
           (diagnosticsObject : list (string * list Any)) =>
         isOpen ← query (Some r) "isDocumentOpen"
                    (MIsDocumentOpen key) (isDocumentOpen key);
         ret (if isOpen : bool then obj_set key value diagnosticsObject
              else diagnosticsObject))
      acc w = (Ok obj, w').
Proof.
  revert acc w.
  induction entries as [|[key value] entries IH]; intros acc w Hc.
  - by eexists _, _.
  - cbn [forEach]. unfold mbind at 1, M_bind at 1, bind at 1.
    unfold query, invoke, mbind, M_bind, bind, ret, emit. rewrite Hc.
    cbn [heap host logLevel trace]. apply IH. cbn [heap].
    by rewrite list_insert_id.
Qed.

(** X8.  With a client at hand, [restart_lsp_server], [start_lsp],
    [open_document], [close_document] and [get_diagnostics] throw exactly
    when a step of their [try] block throws, and what they throw then is
    an [Error] whose message is the tool's prefix followed by the message
    of the error caught; [logError] is the last call made. *)
Theorem errors_are_prefixed env tool prefix w r c :
  catchPrefix tool = Some prefix ->
  lspClient env = Some r ->
  heap w !! r = Some c ->
  match caught resolve readFile env tool c with
  | Some error =>
      (handlers env tool w).1 =
        Throw (JsError (prefix +:+ errorMessage error)) ∧
      last (trace (handlers env tool w).2) = Some (Log Error)
  | None => exists result, (handlers env tool w).1 = Ok result
  end.
Proof.
  intros Hprefix Hr Hc.
  destruct tool; simplify_eq/=.
  - run. rewrite Hr. simpl. destruct (truthy root_dir); simpl; rewrite Hc;
      simpl; destruct (restart _ c) as [[[]|e] c']; simpl;
      first [by eexists | split; [done | by rewrite last_snoc]].
  - run. rewrite Hr. simpl. rewrite Hc. simpl.
    destruct (initialize _ c) as [[[]|e] c']; simpl;
      first [by eexists | split; [done | by rewrite last_snoc]].
  - run. rewrite Hr. simpl.
    destruct (readFile file_path) as [fileContent|e]; simpl;
      [|split; [done | by rewrite last_snoc]].
    rewrite Hc. simpl.
    destruct (openDocument _ _ _ c) as [[[]|e] c']; simpl;
      first [by eexists | split; [done | by rewrite last_snoc]].
  - run. rewrite Hr. simpl. rewrite Hc. simpl.
    destruct (closeDocument _ c) as [[[]|e] c']; simpl;
      first [by eexists | split; [done | by rewrite last_snoc]].
  - destruct (truthy file_path) eqn:Hpath.
    + run. rewrite Hr, Hpath. simpl. rewrite Hc. simpl.
      destruct (isDocumentOpen _ c); simpl;
        [|split; [done | by rewrite last_snoc]].
      rewrite list_lookup_insert_eq by (by eapply lookup_lt_Some).
      simpl. by eexists.
    + unfold getToolHandlers, get_diagnostics_handler. rewrite Hr, Hpath.
      unfold checkLspClientInitialized, try_catch. unfold debug, call.
      unfold mbind at 1 2 3, M_bind at 1 2 3, bind at 1 2 3, ret at 1.
      unfold query at 1, invoke, emit. cbn [heap host logLevel trace].
      rewrite Hc. cbn [heap host logLevel trace].
      rewrite list_insert_id by done.
      unfold mbind at 1, M_bind at 1, bind at 1.
      match goal with
      | |- context [forEach ?es ?cb ?acc ?w0] =>
          destruct (forEach_returns r c es acc w0 Hc) as (obj & w' & ->)
      end.
      unfold ret. by eexists.
Qed.

(** X9.  In the three location tools the request is sent only after
    [openDocument] has succeeded: when [openDocument] throws, the handler
    throws the same error, unwrapped, and its last call is that
    [openDocument]. *)
Theorem no_request_without_open env tool zs file_path lang content e r c c1 w :
  supplied tool = Some zs ->
  readsFile tool = Some file_path ->
  languageOf tool = Some lang ->
  lspClient env = Some r ->
  heap w !! r = Some c ->
  readFile file_path = Ok content ->
  let fileUri := createFileUri resolve file_path in
  openDocument fileUri content lang c = (Throw e, c1) ->
  handlers env tool w =
    (Throw e,
     {| host := host w; heap := <[r := c1]> (heap w);
        logLevel := logLevel w;
        trace := trace w ++
          [Log Debug; ReadFile file_path;
           ClientCall r (MOpenDocument fileUri content lang)] |}).
Proof.
  intros Hsup Hreads Hlang Hr Hc Hfile fileUri Hopen. subst fileUri.
  destruct tool; simplify_eq/=; run; rewrite Hr, Hfile; simpl;
    rewrite Hc, Hopen; simpl; by rewrite <- !app_assoc.
Qed.

(** X10.  [get_completions] and [get_code_actions] return the items of
    the client as they are, all of them and in their order, in one
    [JSON.stringify]; an error of the request is thrown on unchanged. *)
Theorem items_passed_on env file_path lang l k sl sc el ec content
    r c c1 w :
  lspClient env = Some r ->
  heap w !! r = Some c ->
  readFile file_path = Ok content ->
  let fileUri := createFileUri resolve file_path in
  openDocument fileUri content lang c = (Ok tt, c1) ->
  (handlers env (get_completions file_path lang l k) w).1 =
    match (getCompletion fileUri
             {| line := l - 1; character := k - 1 |} c1).1 with
    | Ok items => Ok (textResult (stringify (PArray items)))
    | Throw e => Throw e
    end ∧
  (handlers env (get_code_actions file_path lang sl sc el ec) w).1 =
    match (getCodeActions fileUri
             {| start := {| line := sl - 1; character := sc - 1 |};
                end_ := {| line := el - 1; character := ec - 1 |} |} c1).1
    with
    | Ok items => Ok (textResult (stringify (PArray items)))
    | Throw e => Throw e
    end.
Proof.
  intros Hr Hc Hfile fileUri Hopen. subst fileUri.
  pose proof (lookup_lt_Some _ _ _ Hc) as Hlt.
  split; run; rewrite Hr, Hfile; simpl; rewrite Hc, Hopen; simpl;
    rewrite list_lookup_insert_eq by done.
  - by destruct (getCompletion _ _ c1) as [[items|e] c2].
  - by destruct (getCodeActions _ _ c1) as [[items|e] c2].
Qed.

(** X11.  With a client at hand, [start_lsp] creates no client: it calls
    [setRootDir] with the directory to start in, then [initialize] on the
    client with that directory.  The directory stays stored when
    [initialize] fails, and on success the message names the [rootDir] the
    handlers were created with, not the directory just started in. *)
Theorem start_lsp_with_client_outcome env root_dir w r c :
  lspClient env = Some r ->
  heap w !! r = Some c ->
  let startRootDir := or_else root_dir (rootDir env) in
  handlers env (start_lsp root_dir) w =
    (match (initialize startRootDir c).1 with
     | Ok _ =>
         Ok (textResult
               ("LSP server successfully started with root directory: "
                +:+ rootDir env))
     | Throw e =>
         Throw (JsError ("Failed to start LSP server: " +:+ errorMessage e))
     end,
     {| host := setRootDir startRootDir (host w);
        heap := <[r := (initialize startRootDir c).2]> (heap w);
        logLevel := logLevel w;
        trace := trace w ++
          [Log Info; SetRootDir startRootDir;
           ClientCall r (MInitialize startRootDir)] ++
          errorLog (initialize startRootDir c).1 |}).
Proof.
  intros Hr Hc startRootDir. run. rewrite Hr. simpl. rewrite Hc.
  destruct (initialize _ c) as [[[]|e] c']; simpl; by rewrite <- !app_assoc.
Qed.

(** X12.  Handlers created with [lspClient] null never start the server:
    [start_lsp] throws [Failed to start LSP server: ...] whether or not
    the constructor of the client succeeds, after it has stored the root
    directory with [setRootDir], and it invokes no client method. *)
Theorem start_lsp_null_never_succeeds env root_dir w :
  lspClient env = None ->
  let startRootDir := or_else root_dir (rootDir env) in
  (exists msg,
     (handlers env (start_lsp root_dir) w).1 =
       Throw (JsError ("Failed to start LSP server: " +:+ msg))) ∧
  exists calls,
    trace (handlers env (start_lsp root_dir) w).2 =
      trace w ++ [Log Info; SetRootDir startRootDir] ++ calls ∧
    Forall (fun c => forall r m, c ≠ ClientCall r m) calls.
Proof.
  intros Hnull startRootDir. run. rewrite Hnull.
  destruct (newLSPClient _ _) as [c|e]; simpl;
    (split; [by eexists|]); eexists;
    (split; [by rewrite <- !app_assoc|]); by repeat constructor.
Qed.

(** X14.  Handlers keep the [rootDir] they were created with.  After a
    [restart_lsp_server] with a non-empty [root_dir] on the same handlers,
    a [restart_lsp_server] without [root_dir] restarts the client in the
    [rootDir] of their creation, not in that [root_dir], which the host
    has stored. *)
Theorem restart_keeps_creation_root_dir env dir w r c :
  lspClient env = Some r ->
  heap w !! r = Some c ->
  dir ≠ EmptyString ->
  let w1 := (handlers env (restart_lsp_server (Some dir)) w).2 in
  let w2 := (handlers env (restart_lsp_server None) w1).2 in
  host w2 = setRootDir dir (host w) ∧
  exists calls,
    trace w2 =
      trace w1 ++ [Log Info; ClientCall r (MRestart (rootDir env))] ++ calls.
Proof.
  intros Hr Hc Hdir w1 w2.
  pose proof (lookup_lt_Some _ _ _ Hc) as Hlt.
  assert (host w1 = setRootDir dir (host w) ∧
          exists c1, heap w1 !! r = Some c1) as [Hhost [c1 Hc1]].
  { subst w1. run. rewrite Hr, (truthy_nonempty _ Hdir). simpl. rewrite Hc.
    destruct (restart dir c) as [[[]|e] c1]; simpl;
      (split; [done|]); exists c1; by apply list_lookup_insert_eq. }
  subst w2. run. rewrite Hr. simpl. rewrite Hc1.
  destruct (restart (rootDir env) c1) as [[[]|e] c2]; simpl;
    (split; [done|]); eexists; by rewrite <- !app_assoc.
Qed.

(** X15.  With a client at hand, [open_document] succeeds exactly when
    [fs.readFile] and then [openDocument] succeed, and [close_document]
    exactly when [closeDocument] succeeds; the text returned repeats the
    [file_path] as it was given. *)
Theorem open_close_succeed_iff env file_path lang w r c :
  lspClient env = Some r ->
  heap w !! r = Some c ->
  let fileUri := createFileUri resolve file_path in
  (forall result,
     (handlers env (open_document file_path lang) w).1 = Ok result <->
     result = textResult ("File successfully opened: " +:+ file_path) ∧
     exists content,
       readFile file_path = Ok content ∧
       (openDocument fileUri content lang c).1 = Ok tt) ∧
  (forall result,
     (handlers env (close_document file_path) w).1 = Ok result <->
     result = textResult ("File successfully closed: " +:+ file_path) ∧
     (closeDocument fileUri c).1 = Ok tt).
Proof.
  intros Hr Hc fileUri. subst fileUri. split; intros result; run;
    rewrite Hr; simpl.
  - destruct (readFile file_path) as [content|e]; simpl.
    + rewrite Hc.
      destruct (openDocument _ content lang c) as [[[]|e] c1] eqn:Hopen;
        simpl.
      * split; [|by intros [-> _]].
        intros [= <-]. split; [done|]. exists content. by rewrite Hopen.
      * split; [done|]. intros (_ & content' & Hcontent & Hopen').
        simplify_eq. by rewrite Hopen in Hopen'.
    + split; [done | by intros (_ & content & ? & _)].
  - rewrite Hc. destruct (closeDocument _ c) as [[[]|e] c1] eqn:Hclose; simpl.
    + split; [by intros [= <-] | by intros [-> _]].
    + split; [done | by intros [_ ?]].
Qed.

End HandlerCalls.

(** ** The tool definitions *)

(** X13.  [getToolDefinitions] advertises exactly the tools that
    [getToolHandlers] handles: the same names, each once and in the same
    order, each with the JSON schema of the schema its handler declares;
    so every tool call has a definition. *)
Theorem tool_definitions_match_handlers {J}
    (zodToJsonSchema : ArgsSchema -> J) :
  map (fun d => (name d, inputSchema d)) (getToolDefinitions zodToJsonSchema)
    = map (fun e => (e.1, zodToJsonSchema e.2)) handlerSchemas ∧
  NoDup (map name (getToolDefinitions zodToJsonSchema)) ∧
  forall tool, toolName tool ∈ map name (getToolDefinitions zodToJsonSchema).
Proof.
  split; [reflexivity|]. split.
  - apply (bool_decide_unpack _). vm_compute. reflexivity.
  - intros tool. destruct tool; simpl; set_solver.
Qed.

(** ** The further properties on the reference host *)

Lemma log_level_kept_witness :
  let run := Reference.handlers (Some 0%nat) (get_diagnostics None)
               Reference.demoWorld in
  logLevel run.2 = Info ∧
  exists calls,
    trace run.2 = [] ++ calls ∧
    Forall (fun c => forall level, c ≠ SetLogLevel level) calls.
Proof.
  refine (log_level_kept Reference.setLspClient Reference.setRootDir
            Reference.resolve Reference.readFile Reference.stringify
            (Reference.demoEnv (Some 0%nat)) (get_diagnostics None)
            Reference.demoWorld _).
  intros level. discriminate.
Defined.

Lemma host_kept_witness :
  let run := Reference.handlers (Some 0%nat) (close_document "/project/a.hs")
               Reference.demoWorld in
  host run.2 = host Reference.demoWorld ∧
  exists calls,
    trace run.2 = [] ++ calls ∧
    Forall (fun c => isHostCall c = false) calls.
Proof.
  refine (host_kept Reference.setLspClient Reference.setRootDir
            Reference.resolve Reference.readFile Reference.stringify
            (Reference.demoEnv (Some 0%nat)) (close_document "/project/a.hs")
            Reference.demoWorld _).
  reflexivity.
Defined.

Lemma uri_of_file_path_witness :
  exists calls,
    trace (Reference.handlers (Some 0%nat)
             (get_diagnostics (Some "/project/a.hs")) Reference.demoWorld).2
      = [] ++ calls ∧
    forall r m u, ClientCall r m ∈ calls -> uriOf m = Some u ->
                  u = "file:///project/a.hs".
Proof.
  refine (uri_of_file_path Reference.setLspClient Reference.setRootDir
            Reference.resolve Reference.readFile Reference.stringify
            (Reference.demoEnv (Some 0%nat))
            (get_diagnostics (Some "/project/a.hs")) "/project/a.hs"
            Reference.demoWorld _).
  reflexivity.
Defined.

Lemma unreadable_file_rejected_witness :
  let run := Reference.handlers (Some 0%nat)
               (open_document "/project/gone.hs" "haskell")
               Reference.demoWorld in
  run.1 = Throw (JsError
    "Failed to open document: ENOENT: no such file or directory, open '/project/gone.hs'") ∧
  heap run.2 = heap Reference.demoWorld ∧
  exists calls,
    trace run.2 = [] ++ calls ∧
    Forall (fun c => isClientCall c = false) calls.
Proof.
  refine (unreadable_file_rejected Reference.setLspClient
            Reference.setRootDir Reference.resolve Reference.readFile
            Reference.stringify (Reference.demoEnv (Some 0%nat))
            (open_document "/project/gone.hs" "haskell") "/project/gone.hs"
            (JsError
               "ENOENT: no such file or directory, open '/project/gone.hs'")
            0%nat Reference.demoWorld _ _ _);
    reflexivity.
Defined.

Lemma errors_are_prefixed_witness :
  (Reference.handlers (Some 0%nat) (get_diagnostics (Some "/project/b.hs"))
     Reference.demoWorld).1
    = Throw (JsError ("Failed to get diagnostics: " +:+
        "File /project/b.hs is not open. Please open the file with open_document before requesting diagnostics.")) ∧
  last (trace (Reference.handlers (Some 0%nat)
                 (get_diagnostics (Some "/project/b.hs"))
                 Reference.demoWorld).2)
    = Some (Log Error).
Proof.
  exact (errors_are_prefixed Reference.setLspClient Reference.setRootDir
           Reference.resolve Reference.readFile Reference.stringify
           (Reference.demoEnv (Some 0%nat))
           (get_diagnostics (Some "/project/b.hs"))
           "Failed to get diagnostics: " Reference.demoWorld
           0%nat Reference.demoClient eq_refl eq_refl eq_refl).
Defined.

Lemma no_request_without_open_witness :
  Reference.handlers (Some 0%nat)
    (get_info_on_location "/project/a.hs" "haskell" 1 1) coldWorld
  = (Throw Reference.notInitialized,
     {| host := host coldWorld;
        heap := <[0%nat := (openDocument "file:///project/a.hs"
                              "main = print 1" "haskell"
                              (Reference.Build_Client false EmptyString
                                 DocumentStore.empty
                                 Reference.demoServer)).2]> (heap coldWorld);
        logLevel := Info;
        trace := [] ++
          [Log Debug; ReadFile "/project/a.hs";
           ClientCall 0 (MOpenDocument "file:///project/a.hs"
                           "main = print 1" "haskell")] |}).
Proof.
  refine (no_request_without_open Reference.setLspClient Reference.setRootDir
            Reference.resolve Reference.readFile Reference.stringify
            (Reference.demoEnv (Some 0%nat))
            (get_info_on_location "/project/a.hs" "haskell" 1 1) [1; 1]%float
            "/project/a.hs" "haskell" "main = print 1"
            Reference.notInitialized 0%nat _ _ coldWorld _ _ _ _ _ _ _);
    reflexivity.
Defined.

Lemma items_passed_on_witness :
  (Reference.handlers (Some 0%nat)
     (get_completions "/project/a.hs" "haskell" 1 1) Reference.demoWorld).1
    = Ok (textResult (Reference.stringify
            (PArray [Reference.Completion "foo"; Reference.Completion "bar"]))) ∧
  (Reference.handlers (Some 0%nat)
     (get_code_actions "/project/a.hs" "haskell" 1 1 1 5)
     Reference.demoWorld).1
    = Ok (textResult (Reference.stringify
            (PArray [Reference.CodeAction "Add import"]))).
Proof.
  refine (items_passed_on Reference.setLspClient Reference.setRootDir
            Reference.resolve Reference.readFile Reference.stringify
            (Reference.demoEnv (Some 0%nat)) "/project/a.hs" "haskell"
            1 1 1 1 1 5 "main = print 1" 0%nat Reference.demoClient
            Reference.demoClient Reference.demoWorld _ _ _ _);
    reflexivity.
Defined.

Lemma start_lsp_with_client_outcome_witness :
  Reference.handlers (Some 0%nat) (start_lsp (Some "/other"))
    Reference.demoWorld
  = (Ok (textResult
       "LSP server successfully started with root directory: /project"),
     {| host := Reference.setRootDir "/other" (host Reference.demoWorld);
        heap := <[0%nat := (initialize "/other" Reference.demoClient).2]>
                  (heap Reference.demoWorld);
        logLevel := Info;
        trace := [Log Info; SetRootDir "/other";
                  ClientCall 0 (MInitialize "/other")] |}).
Proof.
  refine (start_lsp_with_client_outcome Reference.setLspClient
            Reference.setRootDir Reference.resolve Reference.readFile
            Reference.stringify (Reference.demoEnv (Some 0%nat))
            (Some "/other") Reference.demoWorld 0%nat Reference.demoClient
            _ _);
    reflexivity.
Defined.

Lemma start_lsp_null_never_succeeds_witness :
  let run := Reference.handlers None (start_lsp None) Reference.freshWorld in
  (exists msg,
     run.1 = Throw (JsError ("Failed to start LSP server: " +:+ msg))) ∧
  exists calls,
    trace run.2 = [] ++ [Log Info; SetRootDir "/project"] ++ calls ∧
    Forall (fun c => forall r m, c ≠ ClientCall r m) calls.
Proof.
  refine (start_lsp_null_never_succeeds Reference.setLspClient
            Reference.setRootDir Reference.resolve Reference.readFile
            Reference.stringify (Reference.demoEnv None) None
            Reference.freshWorld _).
  reflexivity.
Defined.

Lemma restart_keeps_creation_root_dir_witness :
  let w1 := (Reference.handlers (Some 0%nat)
               (restart_lsp_server (Some "/other")) Reference.demoWorld).2 in
  let w2 := (Reference.handlers (Some 0%nat) (restart_lsp_server None) w1).2 in
  host w2 = Reference.setRootDir "/other" (host Reference.demoWorld) ∧
  exists calls,
    trace w2 =
      trace w1 ++ [Log Info; ClientCall 0 (MRestart "/project")] ++ calls.
Proof.
  refine (restart_keeps_creation_root_dir Reference.setLspClient
            Reference.setRootDir Reference.resolve Reference.readFile
            Reference.stringify (Reference.demoEnv (Some 0%nat)) "/other"
            Reference.demoWorld 0%nat Reference.demoClient _ _ _);
    [reflexivity | reflexivity | discriminate].
Defined.

Lemma open_close_succeed_iff_witness :
  (forall result,
     (Reference.handlers (Some 0%nat)
        (open_document "/project/a.hs" "haskell") Reference.demoWorld).1
       = Ok result <->
     result = textResult ("File successfully opened: " +:+ "/project/a.hs") ∧
     exists content,
       Reference.readFile "/project/a.hs" = Ok content ∧
       (openDocument "file:///project/a.hs" content "haskell"
          Reference.demoClient).1 = Ok tt) ∧
  (forall result,
     (Reference.handlers (Some 0%nat) (close_document "/project/a.hs")
        Reference.demoWorld).1 = Ok result <->
     result = textResult ("File successfully closed: " +:+ "/project/a.hs") ∧
     (closeDocument "file:///project/a.hs" Reference.demoClient).1 = Ok tt).
Proof.
  refine (open_close_succeed_iff Reference.setLspClient Reference.setRootDir
            Reference.resolve Reference.readFile Reference.stringify
            (Reference.demoEnv (Some 0%nat)) "/project/a.hs" "haskell"
            Reference.demoWorld 0%nat Reference.demoClient _ _);
    reflexivity.
Defined.
